(** * WebSocket-Scalable-Chat: the connection registry, the Redis relay and
      the websocket gateway, embedded from [backend/*.py].

    Python values are modelled as follows.
    - [str] is [string]; a [dict] is a [gmap]; a [set] is a [gset].
    - A [WebSocket] is hashed by identity, so it is the number of its object.
    - A [User] object is mutated by [ConnectionManager.connect]
      ([user.current_room = room_id]) and kept by reference in
      [user_sessions]; its identity is the field [obj] and its one mutable
      attribute lives in the store [current_room] of the world.
    - A raised exception is the [Raise] outcome of the monad [M]; [exn]
      stands for instances of the class [Exception].  Cancellation of a task
      appears only where the source handles it, in the listener.
    - Everything a call does to the outside (socket traffic, logging, broker
      commands) is appended to the [trace] of the world; what the outside
      answers (a handshake or a send that fails, the clock, the frames of a
      client, the events of the broker) is an argument of the call.
    - A coroutine runs from its call to its return without another task
      running in between.

    The file has three parts: the program, the vocabulary of its properties,
    and the proofs. *)

From Stdlib Require Import ZArith Lia Ascii.
From stdpp Require Import gmap strings list fin_maps.

(** ** Exceptions, log records and the trace of observable events *)

Inductive exn :=
| KeyError
| IndexError
| JSONDecodeError
| ValidationError
| WebSocketDisconnect
| RuntimeError (msg : string)
| ConnectionError (msg : string).

Definition exn_str (e : exn) : string :=
  match e with
  | KeyError => "KeyError"
  | IndexError => "list index out of range"
  | JSONDecodeError => "JSONDecodeError"
  | ValidationError => "ValidationError"
  | WebSocketDisconnect => "WebSocketDisconnect"
  | RuntimeError m => m
  | ConnectionError m => m
  end.

Inductive level := DEBUG | INFO | WARNING | ERROR.

Abbreviation WebSocket := nat.

Inductive event :=
| Accept (ws : WebSocket)
| SendText (ws : WebSocket) (text : string)
| SendFailed (ws : WebSocket) (text : string)
| Close (ws : WebSocket) (code : nat) (reason : string)
| Log (l : level) (msg : string)
| Publish (channel payload : string)
| PublishFailed (channel payload : string)
| Subscribe (channel : string)
| SubscribeFailed (channel : string).

#[global] Instance level_eq_dec : EqDecision level.
Proof. solve_decision. Defined.
#[global] Instance exn_eq_dec : EqDecision exn.
Proof. solve_decision. Defined.
#[global] Instance event_eq_dec : EqDecision event.
Proof. solve_decision. Defined.

(** ** models.py *)

Inductive MessageType := CHAT | JOIN | LEAVE | TYPING | SYSTEM.

#[global] Instance MessageType_eq_dec : EqDecision MessageType.
Proof. solve_decision. Defined.

(** The value of each member of the [str]-valued enum. *)
Definition MessageType_value (t : MessageType) : string :=
  match t with
  | CHAT => "chat"
  | JOIN => "join"
  | LEAVE => "leave"
  | TYPING => "typing"
  | SYSTEM => "system"
  end.

(** [MessageType(s)]: the member whose value is [s], if any. *)
Definition MessageType_of_value (s : string) : option MessageType :=
  if decide (s = "chat") then Some CHAT
  else if decide (s = "join") then Some JOIN
  else if decide (s = "leave") then Some LEAVE
  else if decide (s = "typing") then Some TYPING
  else if decide (s = "system") then Some SYSTEM
  else None.

(** A naive [datetime], as [datetime.utcnow] makes them. *)
Record datetime := mkDatetime {
  year : N; month : N; day : N;
  hour : N; minute : N; second : N; microsecond : N
}.

#[global] Instance datetime_eq_dec : EqDecision datetime.
Proof. solve_decision. Defined.

Record Message := mkMessage {
  user_id : string;
  msg_username : string;
  room_id : string;
  content : string;
  message_type : MessageType;
  timestamp : datetime
}.

#[global] Instance Message_eq_dec : EqDecision Message.
Proof. solve_decision. Defined.

(** [User]: [obj] is the identity of the object; [current_room] is kept in
    the world, see [World]. *)
Record User := mkUser { obj : nat; id : string; username : string }.

#[global] Instance User_eq_dec : EqDecision User.
Proof. solve_decision. Defined.

(** ** The wire format: [Message.model_dump_json] *)

Definition chr (n : N) : ascii := Ascii.ascii_of_N n.
Definition ord (c : ascii) : N := Ascii.N_of_ascii c.

Definition dquote : ascii := Eval cbv in chr 34.
Definition backslash : ascii := Eval cbv in chr 92.

Definition digit (n : N) : ascii := chr (48 + n mod 10)%N.

Definition hexdigit (n : N) : ascii :=
  if (n <? 10)%N then chr (48 + n)%N else chr (87 + n)%N.

Definition str1 (c : ascii) : string := String c EmptyString.

(** [isoformat] pads every field with zeros to its width. *)
Definition pad2 (n : N) : string :=
  String (digit (n / 10)%N) (str1 (digit n)).

Definition pad4 (n : N) : string :=
  String (digit (n / 1000)%N) (String (digit (n / 100)%N) (pad2 n)).

Definition pad6 (n : N) : string :=
  String (digit (n / 100000)%N) (String (digit (n / 10000)%N) (pad4 n)).

(** [datetime.isoformat()]: the fraction is printed only when it is not 0. *)
Definition isoformat (d : datetime) : string :=
  pad4 (year d) +:+ "-" +:+ pad2 (month d) +:+ "-" +:+ pad2 (day d) +:+ "T"
  +:+ pad2 (hour d) +:+ ":" +:+ pad2 (minute d) +:+ ":" +:+ pad2 (second d)
  +:+ (if decide (microsecond d = 0%N) then "" else "." +:+ pad6 (microsecond d)).

(** One character of a JSON string literal. *)
Definition json_escape_char (c : ascii) : string :=
  let n := ord c in
  if decide (n = 34%N) then String backslash (str1 dquote)
  else if decide (n = 92%N) then String backslash (str1 backslash)
  else if decide (n = 8%N) then String backslash "b"
  else if decide (n = 12%N) then String backslash "f"
  else if decide (n = 10%N) then String backslash "n"
  else if decide (n = 13%N) then String backslash "r"
  else if decide (n = 9%N) then String backslash "t"
  else if (n <? 32)%N then
    String backslash ("u00" +:+ String (hexdigit (n / 16)%N) (str1 (hexdigit (n mod 16)%N)))
  else str1 c.

Fixpoint json_escape (s : string) : string :=
  match s with
  | EmptyString => EmptyString
  | String c s' => json_escape_char c +:+ json_escape s'
  end.

Definition json_string (s : string) : string :=
  String dquote (json_escape s +:+ str1 dquote).

Definition json_member (key value : string) : string :=
  json_string key +:+ ":" +:+ json_string value.

(** [message.model_dump_json()]: the fields in declaration order, the enum
    as its value, the timestamp through the [json_encoders] entry
    [datetime: lambda v: v.isoformat()]. *)
Definition model_dump_json (m : Message) : string :=
  "{" +:+ json_member "user_id" (user_id m)
  +:+ "," +:+ json_member "username" (msg_username m)
  +:+ "," +:+ json_member "room_id" (room_id m)
  +:+ "," +:+ json_member "content" (content m)
  +:+ "," +:+ json_member "message_type" (MessageType_value (message_type m))
  +:+ "," +:+ json_member "timestamp" (isoformat (timestamp m))
  +:+ "}".

(** ** The objects of the process *)

Record Room := mkRoom {
  room_key : string; name : string; created_at : datetime; member_count : nat
}.

(** The fields of a [ConnectionManager] instance. *)
Record ConnectionManager := mkConnectionManager {
  active_connections : gmap string (gset WebSocket);
  user_sessions : gmap WebSocket User;
  room_members : gmap string (gset string)
}.

(** The identity of a function object. *)
Abbreviation Callable := nat.

(** The fields of a [RedisManager] instance.  [redis_client] is the handle of
    the client when there is one; [pubsub] is the [PubSub] object, which is
    the set of channels it is subscribed to; [listener_task] tells whether
    the task is done. *)
Record RedisManager := mkRedisManager {
  redis_url : string;
  redis_client : option string;
  pubsub : option (gset string);
  listener_task : option bool;
  message_handler : option Callable
}.

(** The module-level state of [main.py], the store of the mutable attribute
    of the [User] objects (no entry is [None]) and what has been observed. *)
Record World := mkWorld {
  connection_manager : ConnectionManager;
  redis_manager : RedisManager;
  rooms_db : gmap string Room;
  current_room : gmap nat string;
  trace : list event
}.

Definition set_connection_manager (c : ConnectionManager) (w : World) : World :=
  mkWorld c (redis_manager w) (rooms_db w) (current_room w) (trace w).

Definition set_redis_manager (r : RedisManager) (w : World) : World :=
  mkWorld (connection_manager w) r (rooms_db w) (current_room w) (trace w).

Definition set_current_room (h : gmap nat string) (w : World) : World :=
  mkWorld (connection_manager w) (redis_manager w) (rooms_db w) h (trace w).

Definition set_trace (t : list event) (w : World) : World :=
  mkWorld (connection_manager w) (redis_manager w) (rooms_db w) (current_room w) t.

(** ** Statements: state and exceptions *)

Inductive Result (A : Type) :=
| Ok (a : A) (w : World)
| Raise (e : exn) (w : World).
Arguments Ok {A} a w.
Arguments Raise {A} e w.

Definition M (A : Type) : Type := World → Result A.

#[global] Instance M_ret : MRet M := λ A a w, Ok a w.

#[global] Instance M_bind : MBind M := λ A B f m w,
  match m w with
  | Ok a w' => f a w'
  | Raise e w' => Raise e w'
  end.

Definition raise {A} (e : exn) : M A := λ w, Raise e w.

(** [try: m except Exception as e: h e] *)
Definition try_except {A} (m : M A) (h : exn → M A) : M A := λ w,
  match m w with
  | Ok a w' => Ok a w'
  | Raise e w' => h e w'
  end.

Definition emit (ev : event) : M unit := λ w,
  Ok tt (set_trace (trace w ++ [ev]) w).

Definition logger (l : level) (msg : string) : M unit := emit (Log l msg).

(** [for x in xs: body x] *)
Fixpoint for_each {A} (xs : list A) (body : A → M unit) : M unit :=
  match xs with
  | [] => mret tt
  | x :: xs' => body x;; for_each xs' body
  end.

(** The world a statement leaves, however it ends. *)
Definition world_of {A} (r : Result A) : World :=
  match r with Ok _ w => w | Raise _ w => w end.

Definition returns {A} (r : Result A) : bool :=
  match r with Ok _ _ => true | Raise _ _ => false end.

(** Truth value of an [Optional[str]]: [None] and the empty string are false. *)
Definition truthy (o : option string) : bool :=
  match o with
  | Some s => if decide (s = "") then false else true
  | None => false
  end.

(** ** connection_manager.py *)

Module ConnectionManager.

Definition self : M ConnectionManager := λ w, Ok (connection_manager w) w.

Definition update (f : ConnectionManager → ConnectionManager) : M unit := λ w,
  Ok tt (set_connection_manager (f (connection_manager w)) w).

Definition set_active_connections (m : gmap string (gset WebSocket)) (c : ConnectionManager) :=
  mkConnectionManager m (user_sessions c) (room_members c).

Definition set_user_sessions (m : gmap WebSocket User) (c : ConnectionManager) :=
  mkConnectionManager (active_connections c) m (room_members c).

Definition set_room_members (m : gmap string (gset string)) (c : ConnectionManager) :=
  mkConnectionManager (active_connections c) (user_sessions c) m.

(** [__init__] *)
Definition init : ConnectionManager := mkConnectionManager ∅ ∅ ∅.

(** [self.active_connections[room_id] = conns] *)
Definition setitem_active_connections (room_id : string) (conns : gset WebSocket) : M unit :=
  update (λ c, set_active_connections (<[room_id := conns]> (active_connections c)) c).

(** [self.room_members[room_id] = ids] *)
Definition setitem_room_members (room_id : string) (ids : gset string) : M unit :=
  update (λ c, set_room_members (<[room_id := ids]> (room_members c)) c).

(** [self.active_connections[room_id]], a [KeyError] without the key. *)
Definition getitem_active_connections (room_id : string) : M (gset WebSocket) :=
  c ← self;
  match active_connections c !! room_id with
  | Some conns => mret conns
  | None => raise KeyError
  end.

(** [self.room_members[room_id]] *)
Definition getitem_room_members (room_id : string) : M (gset string) :=
  c ← self;
  match room_members c !! room_id with
  | Some ids => mret ids
  | None => raise KeyError
  end.

(** [del self.active_connections[room_id]] *)
Definition delitem_active_connections (room_id : string) : M unit :=
  getitem_active_connections room_id;;
  update (λ c, set_active_connections (delete room_id (active_connections c)) c).

(** [del self.room_members[room_id]] *)
Definition delitem_room_members (room_id : string) : M unit :=
  getitem_room_members room_id;;
  update (λ c, set_room_members (delete room_id (room_members c)) c).

(** [del self.user_sessions[websocket]] *)
Definition delitem_user_sessions (websocket : WebSocket) : M unit :=
  c ← self;
  match user_sessions c !! websocket with
  | Some _ => update (λ c, set_user_sessions (delete websocket (user_sessions c)) c)
  | None => raise KeyError
  end.

(** [await websocket.accept()]; the handshake may fail. *)
Definition accept (raises : option exn) (websocket : WebSocket) : M unit :=
  match raises with
  | Some e => raise e
  | None => emit (Accept websocket)
  end.

(** [user.current_room], read from the object. *)
Definition get_current_room (user : User) : M (option string) := λ w,
  Ok (current_room w !! obj user) w.

(** [user.current_room = room_id], written to the object. *)
Definition assign_current_room (user : User) (room_id : string) : M unit := λ w,
  Ok tt (set_current_room (<[obj user := room_id]> (current_room w)) w).

Definition connect (accept_raises : option exn)
    (websocket : WebSocket) (user : User) (room_id : string) : M unit :=
  accept accept_raises websocket;;
  c ← self;
  (if decide (room_id ∈ dom (active_connections c)) then mret tt
   else setitem_active_connections room_id ∅;;
        setitem_room_members room_id ∅);;
  conns ← getitem_active_connections room_id;
  setitem_active_connections room_id (conns ∪ {[websocket]});;
  ids ← getitem_room_members room_id;
  setitem_room_members room_id (ids ∪ {[id user]});;
  assign_current_room user room_id;;
  update (λ c, set_user_sessions (<[websocket := user]> (user_sessions c)) c);;
  logger INFO ("User " +:+ username user +:+ " connected to room " +:+ room_id).

Definition disconnect (websocket : WebSocket) : M unit :=
  c ← self;
  match user_sessions c !! websocket with
  | None => mret tt
  | Some user =>
      room_id ← get_current_room user;
      (if truthy room_id && bool_decide (default "" room_id ∈ dom (active_connections c)) then
         let room_id := default "" room_id in
         conns ← getitem_active_connections room_id;
         setitem_active_connections room_id (conns ∖ {[websocket]});;
         ids ← getitem_room_members room_id;
         setitem_room_members room_id (ids ∖ {[id user]});;
         conns ← getitem_active_connections room_id;
         if decide (conns = ∅) then
           delitem_active_connections room_id;;
           delitem_room_members room_id
         else mret tt
       else mret tt);;
      delitem_user_sessions websocket;;
      logger INFO ("User " +:+ username user +:+ " disconnected from room "
                   +:+ default "None" room_id)
  end.

(** [await connection.send_text(message_json)]; the send may fail. *)
Definition send_text (raises : WebSocket → option exn)
    (connection : WebSocket) (text : string) : M unit :=
  match raises connection with
  | Some e => emit (SendFailed connection text);; raise e
  | None => emit (SendText connection text)
  end.

(** The first loop of [broadcast_to_room]; it returns the set [disconnected]. *)
Fixpoint sweep (raises : WebSocket → option exn) (message_json : string)
    (connections : list WebSocket) (disconnected : gset WebSocket) : M (gset WebSocket) :=
  match connections with
  | [] => mret disconnected
  | connection :: rest =>
      failed ← try_except
        (send_text raises connection message_json;; mret false)
        (λ e, logger ERROR ("Error sending message: " +:+ exn_str e);; mret true);
      sweep raises message_json rest
        (if failed : bool then disconnected ∪ {[connection]} else disconnected)
  end.

Definition broadcast_to_room (send_raises : WebSocket → option exn)
    (room_id : string) (message : Message) : M unit :=
  c ← self;
  match active_connections c !! room_id with
  | None =>
      logger WARNING ("Attempted to broadcast to non-existent room: " +:+ room_id)
  | Some conns =>
      let message_json := model_dump_json message in
      disconnected ← sweep send_raises message_json (elements conns) ∅;
      for_each (elements disconnected) disconnect
  end.

Definition get_room_member_count (c : ConnectionManager) (room_id : string) : nat :=
  size (default ∅ (room_members c !! room_id)).

Definition get_user_info (c : ConnectionManager) (websocket : WebSocket) : option User :=
  user_sessions c !! websocket.

Definition get_all_rooms (c : ConnectionManager) : gmap string nat :=
  size <$> room_members c.

End ConnectionManager.

(** ** Reading the wire format: [json.loads] and the constructor of [Message]

    [json_loads] reads the JSON texts that are one object whose members are
    strings, which covers every text [model_dump_json] writes.  A text
    outside this fragment is reported as a [JSONDecodeError]. *)

Definition is_ws (c : ascii) : bool :=
  let n := ord c in
  bool_decide (n = 32%N) || bool_decide (n = 9%N)
  || bool_decide (n = 10%N) || bool_decide (n = 13%N).

Fixpoint skip_ws (s : string) : string :=
  match s with
  | EmptyString => EmptyString
  | String c s' => if is_ws c then skip_ws s' else s
  end.

Definition hexval (c : ascii) : option N :=
  let n := ord c in
  if (48 <=? n)%N && (n <=? 57)%N then Some (n - 48)%N
  else if (97 <=? n)%N && (n <=? 102)%N then Some (n - 87)%N
  else if (65 <=? n)%N && (n <=? 70)%N then Some (n - 55)%N
  else None.

(** The bytes of a code point of the basic plane; a lone surrogate has none. *)
Definition utf8_encode (cp : N) : option string :=
  if (cp <? 128)%N then Some (str1 (chr cp))
  else if (cp <? 2048)%N then
    Some (String (chr (192 + cp / 64)%N) (str1 (chr (128 + cp mod 64)%N)))
  else if (55296 <=? cp)%N && (cp <=? 57343)%N then None
  else Some (String (chr (224 + cp / 4096)%N)
            (String (chr (128 + (cp / 64) mod 64)%N) (str1 (chr (128 + cp mod 64)%N)))).

(** The character a two-character escape stands for. *)
Definition simple_escape (n : N) : option ascii :=
  if decide (n = 34%N) then Some dquote
  else if decide (n = 92%N) then Some backslash
  else if decide (n = 47%N) then Some (chr 47)
  else if decide (n = 98%N) then Some (chr 8)
  else if decide (n = 102%N) then Some (chr 12)
  else if decide (n = 110%N) then Some (chr 10)
  else if decide (n = 114%N) then Some (chr 13)
  else if decide (n = 116%N) then Some (chr 9)
  else None.

(** The rest of a string literal after its opening quote: the string it
    denotes and the text after its closing quote. *)
Fixpoint json_unescape (s : string) : option (string * string) :=
  match s with
  | EmptyString => None
  | String c s1 =>
      let n := ord c in
      if decide (n = 34%N) then Some (EmptyString, s1)
      else if decide (n = 92%N) then
        match s1 with
        | EmptyString => None
        | String e s2 =>
            if decide (ord e = 117%N) then
              match s2 with
              | String h1 (String h2 (String h3 (String h4 s3))) =>
                  match hexval h1, hexval h2, hexval h3, hexval h4 with
                  | Some a, Some b, Some c, Some d =>
                      match utf8_encode (((a * 16 + b) * 16 + c) * 16 + d)%N,
                            json_unescape s3 with
                      | Some bytes, Some (t, rest) => Some (bytes +:+ t, rest)
                      | _, _ => None
                      end
                  | _, _, _, _ => None
                  end
              | _ => None
              end
            else
              match simple_escape (ord e), json_unescape s2 with
              | Some ch, Some (t, rest) => Some (String ch t, rest)
              | _, _ => None
              end
        end
      else if (n <? 32)%N then None
      else
        match json_unescape s1 with
        | Some (t, rest) => Some (String c t, rest)
        | None => None
        end
  end.

Definition parse_string (s : string) : option (string * string) :=
  match s with
  | String c s' => if decide (ord c = 34%N) then json_unescape s' else None
  | EmptyString => None
  end.

Definition expect (n : N) (s : string) : option string :=
  match s with
  | String c s' => if decide (ord c = n) then Some s' else None
  | EmptyString => None
  end.

(** The members of an object from the first key on, up to the closing brace. *)
Fixpoint parse_members (fuel : nat) (s : string) : option (list (string * string) * string) :=
  match fuel with
  | O => None
  | S fuel' =>
      '(key, s) ← parse_string (skip_ws s);
      s ← expect 58 (skip_ws s);
      '(value, s) ← parse_string (skip_ws s);
      match skip_ws s with
      | String c s' =>
          if decide (ord c = 125%N) then Some ([(key, value)], s')
          else if decide (ord c = 44%N) then
            '(rest, s'') ← parse_members fuel' s';
            Some ((key, value) :: rest, s'')
          else None
      | EmptyString => None
      end
  end.

Definition parse_object (s : string) : option (list (string * string)) :=
  s ← expect 123 (skip_ws s);
  '(members, s) ←
    match expect 125 (skip_ws s) with
    | Some s' => Some ([], s')
    | None => parse_members (String.length s) s
    end;
  match skip_ws s with
  | EmptyString => Some members
  | String _ _ => None
  end.

(** [json.loads(text)]: a later member replaces an earlier one of the same key. *)
Definition json_loads (text : string) : exn + gmap string string :=
  match parse_object text with
  | Some members => inr (list_to_map (reverse members))
  | None => inl JSONDecodeError
  end.

Definition digit_val (c : ascii) : option N :=
  let n := ord c in
  if (48 <=? n)%N && (n <=? 57)%N then Some (n - 48)%N else None.

(** Exactly [k] decimal digits, read after the value [acc]. *)
Fixpoint take_digits (k : nat) (acc : N) (s : string) : option (N * string) :=
  match k with
  | O => Some (acc, s)
  | S k' =>
      match s with
      | String c s' =>
          match digit_val c with
          | Some v => take_digits k' (acc * 10 + v)%N s'
          | None => None
          end
      | EmptyString => None
      end
  end.

Definition is_leap (y : N) : bool :=
  bool_decide (y mod 4 = 0)%N && (negb (bool_decide (y mod 100 = 0)%N) || bool_decide (y mod 400 = 0)%N).

Definition days_in_month (y m : N) : N :=
  if decide (m = 2%N) then (if is_leap y then 29 else 28)%N
  else if bool_decide (m = 4%N) || bool_decide (m = 6%N)
          || bool_decide (m = 9%N) || bool_decide (m = 11%N) then 30%N
  else 31%N.

(** The values a [datetime] object can hold. *)
Definition valid_datetime (d : datetime) : bool :=
  (1 <=? year d)%N && (year d <=? 9999)%N
  && (1 <=? month d)%N && (month d <=? 12)%N
  && (1 <=? day d)%N && (day d <=? days_in_month (year d) (month d))%N
  && (hour d <? 24)%N && (minute d <? 60)%N && (second d <? 60)%N
  && (microsecond d <? 1000000)%N.

(** The datetime an ISO-8601 string of the form [isoformat] writes denotes. *)
Definition fromisoformat (s : string) : option datetime :=
  '(y, s) ← take_digits 4 0 s;
  s ← expect 45 s;
  '(mo, s) ← take_digits 2 0 s;
  s ← expect 45 s;
  '(d, s) ← take_digits 2 0 s;
  s ← expect 84 s;
  '(h, s) ← take_digits 2 0 s;
  s ← expect 58 s;
  '(mi, s) ← take_digits 2 0 s;
  s ← expect 58 s;
  '(se, s) ← take_digits 2 0 s;
  '(us, s) ←
    match expect 46 s with
    | Some s' => take_digits 6 0 s'
    | None => Some (0%N, s)
    end;
  let dt := mkDatetime y mo d h mi se us in
  match s with
  | EmptyString => if valid_datetime dt then Some dt else None
  | String _ _ => None
  end.

(** [Message] built from the keys of [message_data]: the four identifying
    fields are required,
    [message_type] defaults to [MessageType.CHAT] and [timestamp] to
    [datetime.utcnow()]; other keys are ignored. *)
Definition Message_of_dict (utcnow : datetime) (d : gmap string string) : exn + Message :=
  match d !! "user_id", d !! "username", d !! "room_id", d !! "content" with
  | Some u, Some n, Some r, Some c =>
      match
        (match d !! "message_type" with
         | None => Some CHAT
         | Some v => MessageType_of_value v
         end),
        (match d !! "timestamp" with
         | None => Some utcnow
         | Some v => fromisoformat v
         end)
      with
      | Some t, Some ts => inr (mkMessage u n r c t ts)
      | _, _ => inl ValidationError
      end
  | _, _, _, _ => inl ValidationError
  end.

(** [channel.split(":", 1)], whose item [1] is what follows the first colon. *)
Fixpoint after_first_colon (s : string) : option string :=
  match s with
  | EmptyString => None
  | String c s' => if decide (ord c = 58%N) then Some s' else after_first_colon s'
  end.

(** An expression that yields a value or raises. *)
Definition eval {A} (r : exn + A) : M A :=
  match r with
  | inl e => raise e
  | inr a => mret a
  end.

(** ** redis_manager.py *)

(** A dictionary yielded by [pubsub.listen()]. *)
Record pubsub_message := mkPubsubMessage {
  type : string; channel : string; data : string
}.

(** What the iteration over [pubsub.listen()] does next: it yields a
    dictionary, it is cancelled, or the connection raises. *)
Inductive listen_step :=
| Yield (message : pubsub_message)
| Cancelled
| ListenRaises (e : exn).

Module RedisManager.

Definition self : M RedisManager := λ w, Ok (redis_manager w) w.

Definition update (f : RedisManager → RedisManager) : M unit := λ w,
  Ok tt (set_redis_manager (f (redis_manager w)) w).

Definition set_redis_client (v : option string) (r : RedisManager) :=
  mkRedisManager (redis_url r) v (pubsub r) (listener_task r) (message_handler r).

Definition set_pubsub (v : option (gset string)) (r : RedisManager) :=
  mkRedisManager (redis_url r) (redis_client r) v (listener_task r) (message_handler r).

Definition set_handler (v : option Callable) (r : RedisManager) :=
  mkRedisManager (redis_url r) (redis_client r) (pubsub r) (listener_task r) v.

(** [__init__] *)
Definition init (redis_url : string) : RedisManager :=
  mkRedisManager redis_url None None None None.

(** [await redis.from_url(...)]; the broker may be unreachable. *)
Definition from_url (raises : option exn) (url : string) : M string :=
  match raises with
  | Some e => raise e
  | None => mret url
  end.

Definition connect (from_url_raises : option exn) : M unit :=
  try_except
    (r ← self;
     client ← from_url from_url_raises (redis_url r);
     update (set_redis_client (Some client));;
     update (set_pubsub (Some ∅));;
     logger INFO "Connected to Redis successfully")
    (λ e, logger ERROR ("Failed to connect to Redis: " +:+ exn_str e);; raise e).

(** [await self.redis_client.publish(channel, message_json)] *)
Definition redis_publish (raises : option exn) (channel message_json : string) : M unit :=
  match raises with
  | Some e => emit (PublishFailed channel message_json);; raise e
  | None => emit (Publish channel message_json)
  end.

Definition publish_message (publish_raises : option exn)
    (room_id : string) (message : Message) : M unit :=
  r ← self;
  match redis_client r with
  | None => logger ERROR "Redis client not connected"
  | Some _ =>
      try_except
        (let channel := "room:" +:+ room_id in
         let message_json := model_dump_json message in
         redis_publish publish_raises channel message_json;;
         logger DEBUG ("Published message to " +:+ channel))
        (λ e, logger ERROR ("Error publishing message: " +:+ exn_str e))
  end.

(** [await self.pubsub.subscribe(channel)] *)
Definition pubsub_subscribe (raises : option exn) (channel : string) : M unit :=
  match raises with
  | Some e => emit (SubscribeFailed channel);; raise e
  | None =>
      update (λ r, set_pubsub (Some (default ∅ (pubsub r) ∪ {[channel]})) r);;
      emit (Subscribe channel)
  end.

Definition subscribe_to_room (subscribe_raises : option exn) (room_id : string) : M unit :=
  r ← self;
  match pubsub r with
  | None => logger ERROR "PubSub not initialized"
  | Some _ =>
      try_except
        (let channel := "room:" +:+ room_id in
         pubsub_subscribe subscribe_raises channel;;
         logger INFO ("Subscribed to " +:+ channel))
        (λ e, logger ERROR ("Error subscribing to room: " +:+ exn_str e))
  end.

Definition set_message_handler (handler : Callable) : M unit :=
  update (set_handler (Some handler)).

(** The body of the loop of [start_listening] for one yielded dictionary.
    [call] runs a function object on its arguments and [utcnow] is the clock
    read by the default of [timestamp]. *)
Definition on_message (call : Callable → string → Message → M unit)
    (utcnow : datetime) (message : pubsub_message) : M unit :=
  if decide (type message = "message") then
    try_except
      (let channel := channel message in
       room_id ← eval (from_option inr (inl IndexError) (after_first_colon channel));
       message_data ← eval (json_loads (data message));
       msg ← eval (Message_of_dict utcnow message_data);
       r ← self;
       match message_handler r with
       | Some handler => call handler room_id msg
       | None => mret tt
       end)
      (λ e, logger ERROR ("Error processing message: " +:+ exn_str e))
  else mret tt.

(** The loop over what [pubsub.listen()] does, up to the steps given; it
    returns whether it was cancelled. *)
Fixpoint listen_loop (call : Callable → string → Message → M unit)
    (utcnow : datetime) (steps : list listen_step) : M bool :=
  match steps with
  | [] => mret false
  | Yield message :: rest =>
      on_message call utcnow message;; listen_loop call utcnow rest
  | Cancelled :: _ => mret true
  | ListenRaises e :: _ => raise e
  end.

Definition start_listening (call : Callable → string → Message → M unit)
    (utcnow : datetime) (steps : list listen_step) : M unit :=
  r ← self;
  match pubsub r with
  | None => logger ERROR "PubSub not initialized"
  | Some _ =>
      logger INFO "Started Redis listener";;
      try_except
        (cancelled ← listen_loop call utcnow steps;
         if cancelled : bool then logger INFO "Redis listener cancelled" else mret tt)
        (λ e, logger ERROR ("Error in Redis listener: " +:+ exn_str e))
  end.

(** [start_listener_task]: a task is created unless one is still running.
    What the task does is [start_listening]. *)
Definition start_listener_task : M unit :=
  r ← self;
  match listener_task r with
  | Some false => mret tt
  | _ =>
      update (λ r, mkRedisManager (redis_url r) (redis_client r) (pubsub r)
                     (Some false) (message_handler r))
  end.

End RedisManager.

(** ** main.py *)

(** What [await websocket.receive_text()] does: it returns the text of a
    frame, or it raises.  With a frame come the clock and the outcome of the
    publish the frame leads to. *)
Inductive receive_step :=
| Text (data : string) (utcnow : datetime) (publish_raises : option exn)
| ReceiveRaises (e : exn).

(** A request to [/ws/{room_id}] with what the handler reads from outside:
    the query parameter, the value of [uuid.uuid4()], the identity of the
    [User] it allocates, the clock, and the outcome of every awaited call. *)
Record Request := mkRequest {
  websocket : WebSocket;
  query_username : option string;
  path_room_id : string;
  uuid4 : string;
  user_obj : nat;
  accept_raises : option exn;
  subscribe_raises : option exn;
  join_utcnow : datetime;
  join_publish_raises : option exn;
  received : list receive_step;
  leave_utcnow : datetime;
  leave_publish_raises : option exn
}.

(** [handle_redis_message], the function [lifespan] registers. *)
Definition handle_redis_message (send_raises : WebSocket → option exn)
    (room_id : string) (message : Message) : M unit :=
  ConnectionManager.broadcast_to_room send_raises room_id message.

(** The identity of the function object [handle_redis_message]. *)
Definition handle_redis_message_id : Callable := 0.

Definition default_rooms : list (string * string) :=
  [("general", "General"); ("random", "Random"); ("tech", "Tech Talk")].

(** [rooms_db[room_id] = room] *)
Definition setitem_rooms_db (room_id : string) (room : Room) : M unit := λ w,
  Ok tt (mkWorld (connection_manager w) (redis_manager w)
           (<[room_id := room]> (rooms_db w)) (current_room w) (trace w)).

(** [lifespan] up to its [yield]. *)
Definition lifespan_startup (from_url_raises : option exn) (utcnow : datetime) : M unit :=
  logger INFO "Starting up application...";;
  RedisManager.connect from_url_raises;;
  RedisManager.set_message_handler handle_redis_message_id;;
  RedisManager.start_listener_task;;
  for_each default_rooms
    (λ room_data, setitem_rooms_db room_data.1
                    (mkRoom room_data.1 room_data.2 utcnow 0));;
  logger INFO "Application started successfully".

(** [get_rooms]: a copy of every stored room with the count the registry
    has for its key, 0 without one.  The list comes in the order the map
    enumerates its keys, which need not be the order of insertion. *)
Definition get_rooms : M (list Room) :=
  c ← ConnectionManager.self;
  let room_counts := ConnectionManager.get_all_rooms c in
  db ← ((λ w, Ok (rooms_db w) w) : M (gmap string Room));
  mret ((λ item : string * Room,
           let room_copy := item.2 in
           mkRoom (room_key room_copy) (name room_copy) (created_at room_copy)
             (default 0 (room_counts !! item.1)))
        <$> map_to_list db).

(** [create_room]: [uuid4] is the value of [str(uuid.uuid4())] and [utcnow]
    the clock read by the default of [created_at]. *)
Definition create_room (request_name : string) (uuid4 : string) (utcnow : datetime)
    : M Room :=
  let room_id := uuid4 in
  let room := mkRoom room_id request_name utcnow 0 in
  setitem_rooms_db room_id room;;
  logger INFO ("Created new room: " +:+ name room +:+ " (" +:+ room_id +:+ ")");;
  mret room.

(** [await websocket.close(code=..., reason=...)] *)
Definition websocket_close (ws : WebSocket) (code : nat) (reason : string) : M unit :=
  emit (Close ws code reason).

(** The [while True] loop of [websocket_endpoint], up to the steps given. *)
Fixpoint receive_loop (user_id username room_id : string)
    (steps : list receive_step) : M unit :=
  match steps with
  | [] => mret tt
  | Text data utcnow publish_raises :: rest =>
      let message := mkMessage user_id username room_id data CHAT utcnow in
      RedisManager.publish_message publish_raises room_id message;;
      receive_loop user_id username room_id rest
  | ReceiveRaises e :: _ => raise e
  end.

Definition websocket_endpoint (q : Request) : M unit :=
  let websocket := websocket q in
  let room_id := path_room_id q in
  let username := default "Anonymous" (query_username q) in
  let user_id := uuid4 q in
  let user := mkUser (user_obj q) user_id username in
  (* User(id=user_id, username=username, current_room=room_id) *)
  ConnectionManager.assign_current_room user room_id;;
  db ← (λ w, Ok (rooms_db w) w);
  if decide (room_id ∈ dom db) then
    ConnectionManager.connect (accept_raises q) websocket user room_id;;
    RedisManager.subscribe_to_room (subscribe_raises q) room_id;;
    let join_message :=
      mkMessage user_id username room_id (username +:+ " joined the room")
        JOIN (join_utcnow q) in
    RedisManager.publish_message (join_publish_raises q) room_id join_message;;
    try_except
      (receive_loop user_id username room_id (received q))
      (λ e,
        if decide (e = WebSocketDisconnect) then
          ConnectionManager.disconnect websocket;;
          let leave_message :=
            mkMessage user_id username room_id (username +:+ " left the room")
              LEAVE (leave_utcnow q) in
          RedisManager.publish_message (leave_publish_raises q) room_id leave_message;;
          logger INFO ("User " +:+ username +:+ " disconnected from room " +:+ room_id)
        else
          logger ERROR ("Error in WebSocket connection: " +:+ exn_str e);;
          ConnectionManager.disconnect websocket)
  else
    websocket_close websocket 1008 "Room not found".

(** [json.loads] followed by the constructor, as [start_listening] reads a
    payload. *)
Definition Message_from_json (utcnow : datetime) (text : string) : exn + Message :=
  match json_loads text with
  | inl e => inl e
  | inr message_data => Message_of_dict utcnow message_data
  end.

(** * Vocabulary of the properties *)

(** ** Operations on the registry and the states they reach *)

Inductive op :=
| Connect (accept_raises : option exn) (ws : WebSocket) (user : User) (room : string)
| Disconnect (ws : WebSocket)
| Broadcast (send_raises : WebSocket → option exn) (room : string) (message : Message).

Definition run (o : op) : M unit :=
  match o with
  | Connect a ws user room => ConnectionManager.connect a ws user room
  | Disconnect ws => ConnectionManager.disconnect ws
  | Broadcast s room message => ConnectionManager.broadcast_to_room s room message
  end.

(** The world an operation leaves, whether it returns or raises. *)
Definition step (o : op) (w : World) : World := world_of (run o w).

Definition run_all (os : list op) (w : World) : World := foldl (λ w o, step o w) w os.

(** The worlds reached from a fresh [ConnectionManager] by operations that
    [allowed] admits in the world they start from. *)
Inductive reachable_by (allowed : World → op → Prop) : World → Prop :=
| reachable_init w :
    connection_manager w = ConnectionManager.init → reachable_by allowed w
| reachable_step w o :
    reachable_by allowed w → allowed w o → reachable_by allowed (step o w).

(** The connection set of a room, empty when the room has no entry. *)
Definition room_connections (c : ConnectionManager) (r : string) : gset WebSocket :=
  default ∅ (active_connections c !! r).

(** A [connect] with a handle the registry does not know. *)
Definition fresh_handle (w : World) (o : op) : Prop :=
  match o with
  | Connect _ ws _ _ =>
      (ws ∉ dom (user_sessions (connection_manager w)))
      ∧ (∀ r, ws ∉ room_connections (connection_manager w) r)
  | _ => True
  end.

(** A [connect] as [websocket_endpoint] makes it: a handle without a session,
    a [User] object no session holds, and a room id that is not empty. *)
Definition fresh_session (w : World) (o : op) : Prop :=
  match o with
  | Connect _ ws user room =>
      (ws ∉ dom (user_sessions (connection_manager w)))
      ∧ (∀ ws' user', user_sessions (connection_manager w) !! ws' = Some user' →
           obj user' ≠ obj user)
      ∧ room ≠ ""
  | _ => True
  end.

(** A [connect] that moreover brings a user id no session has. *)
Definition fresh_user (w : World) (o : op) : Prop :=
  fresh_session w o
  ∧ match o with
    | Connect _ _ user _ =>
        ∀ ws' user', user_sessions (connection_manager w) !! ws' = Some user' →
          id user' ≠ id user
    | _ => True
    end.

Definition keys_agree (c : ConnectionManager) : Prop :=
  dom (active_connections c) = dom (room_members c).

Record registry_inv (w : World) : Prop := {
  inv_keys : keys_agree (connection_manager w);
  inv_nonempty : ∀ r conns,
    active_connections (connection_manager w) !! r = Some conns → conns ≠ ∅;
  inv_conn_session : ∀ r ws,
    ws ∈ room_connections (connection_manager w) r →
    ∃ user, user_sessions (connection_manager w) !! ws = Some user
            ∧ current_room w !! obj user = Some r;
  inv_session_conn : ∀ ws user,
    user_sessions (connection_manager w) !! ws = Some user →
    ∃ r, current_room w !! obj user = Some r ∧ r ≠ ""
         ∧ ws ∈ room_connections (connection_manager w) r
}.

(** What the data model asks of the registry. *)
Definition consistent (c : ConnectionManager) : Prop :=
  (∀ ws r1 r2, ws ∈ room_connections c r1 → ws ∈ room_connections c r2 → r1 = r2)
  ∧ (∀ ws, (∃ r, ws ∈ room_connections c r) ↔ is_Some (user_sessions c !! ws))
  ∧ dom (active_connections c) = dom (room_members c)
  ∧ (∀ r, active_connections c !! r ≠ Some ∅).

(** The ids of the users whose connections are registered in a room. *)
Definition connected_user_ids (c : ConnectionManager) (r : string) : gset string :=
  list_to_set (omap (λ ws, id <$> user_sessions c !! ws) (elements (room_connections c r))).

(** ** Log records *)

Definition log_connect (user : User) (room : string) : event :=
  Log INFO ("User " +:+ username user +:+ " connected to room " +:+ room).

Definition log_disconnect (user : User) (room : option string) : event :=
  Log INFO ("User " +:+ username user +:+ " disconnected from room " +:+ default "None" room).

Definition log_no_room (room_id : string) : event :=
  Log WARNING ("Attempted to broadcast to non-existent room: " +:+ room_id).

Definition log_processing_error (e : exn) (w : World) : World :=
  set_trace (trace w ++ [Log ERROR ("Error processing message: " +:+ exn_str e)]) w.

(** ** Reading the trace *)

Definition new_events (w w' : World) : list event :=
  drop (length (trace w)) (trace w').

Definition is_log (ev : event) : bool :=
  match ev with Log _ _ => true | _ => false end.

Definition attempt_of (ev : event) : option WebSocket :=
  match ev with
  | SendText ws _ | SendFailed ws _ => Some ws
  | _ => None
  end.

Definition delivery_of (ev : event) : option (WebSocket * string) :=
  match ev with
  | SendText ws text => Some (ws, text)
  | _ => None
  end.

Definition published_of (ev : event) : option (string * string) :=
  match ev with
  | Publish channel payload => Some (channel, payload)
  | _ => None
  end.

(** The connections a send was attempted on, the texts that arrived, and
    the payloads the broker took, in order. *)
Definition attempts (t : list event) : list WebSocket := omap attempt_of t.
Definition deliveries (t : list event) : list (WebSocket * string) := omap delivery_of t.
Definition published (t : list event) : list (string * string) := omap published_of t.

(** [w'] extends the trace of [w] by log records only. *)
Definition only_logs (w w' : World) : Prop :=
  ∃ t, trace w' = trace w ++ t ∧ forallb is_log t = true.

(** What the first loop of [broadcast_to_room] writes and collects. *)
Fixpoint sweep_events (raises : WebSocket → option exn) (json : string)
    (l : list WebSocket) : list event :=
  match l with
  | [] => []
  | c :: l' =>
      match raises c with
      | Some e => [SendFailed c json; Log ERROR ("Error sending message: " +:+ exn_str e)]
      | None => [SendText c json]
      end ++ sweep_events raises json l'
  end.

Definition sweep_failed (raises : WebSocket → option exn) (l : list WebSocket)
  : gset WebSocket :=
  list_to_set (filter (λ c, is_Some (raises c)) l).

(** ** The outcomes of [connect] and [disconnect] *)

(** The four ways [disconnect] can go: the handle has no session; the guard
    on the room id fails; the room is cleaned up; [room_members] lacks the
    room the connection set was taken from. *)
Inductive disconnect_case (w : World) (ws : WebSocket) : Result unit → Prop :=
| dc_unknown :
    user_sessions (connection_manager w) !! ws = None →
    disconnect_case w ws (Ok tt w)
| dc_no_room user :
    user_sessions (connection_manager w) !! ws = Some user →
    truthy (current_room w !! obj user)
      && bool_decide (default "" (current_room w !! obj user)
                      ∈ dom (active_connections (connection_manager w))) = false →
    disconnect_case w ws
      (Ok tt (set_trace (trace w ++ [log_disconnect user (current_room w !! obj user)])
            (set_connection_manager
               (ConnectionManager.set_user_sessions
                  (delete ws (user_sessions (connection_manager w)))
                  (connection_manager w)) w)))
| dc_room user r conns ids :
    user_sessions (connection_manager w) !! ws = Some user →
    current_room w !! obj user = Some r →
    r ≠ "" →
    active_connections (connection_manager w) !! r = Some conns →
    room_members (connection_manager w) !! r = Some ids →
    disconnect_case w ws
      (Ok tt (set_trace (trace w ++ [log_disconnect user (Some r)])
            (set_connection_manager
               (mkConnectionManager
                  (if decide (conns ∖ {[ws]} = ∅)
                   then delete r (active_connections (connection_manager w))
                   else <[r := conns ∖ {[ws]}]> (active_connections (connection_manager w)))
                  (delete ws (user_sessions (connection_manager w)))
                  (if decide (conns ∖ {[ws]} = ∅)
                   then delete r (room_members (connection_manager w))
                   else <[r := ids ∖ {[id user]}]> (room_members (connection_manager w))))
               w)))
| dc_raises user r conns :
    user_sessions (connection_manager w) !! ws = Some user →
    current_room w !! obj user = Some r →
    r ≠ "" →
    active_connections (connection_manager w) !! r = Some conns →
    room_members (connection_manager w) !! r = None →
    disconnect_case w ws
      (Raise KeyError
        (set_connection_manager
           (ConnectionManager.set_active_connections
              (<[r := conns ∖ {[ws]}]> (active_connections (connection_manager w)))
              (connection_manager w)) w)).

(** The world after a [connect] that registers [ws] beside [conns] and
    [id user] beside [ids]. *)
Definition connected (w : World) (ws : WebSocket) (user : User) (r : string)
    (conns : gset WebSocket) (ids : gset string) : World :=
  mkWorld
    (mkConnectionManager
       (<[r := conns ∪ {[ws]}]> (active_connections (connection_manager w)))
       (<[ws := user]> (user_sessions (connection_manager w)))
       (<[r := ids ∪ {[id user]}]> (room_members (connection_manager w))))
    (redis_manager w) (rooms_db w)
    (<[obj user := r]> (current_room w))
    (trace w ++ [Accept ws; log_connect user r]).

(** The ways [connect] can go. *)
Inductive connect_case (w : World) (ws : WebSocket) (user : User) (r : string)
  : option exn → Result unit → Prop :=
| cc_accept_raises e : connect_case w ws user r (Some e) (Raise e w)
| cc_new_room :
    active_connections (connection_manager w) !! r = None →
    connect_case w ws user r None (Ok tt (connected w ws user r ∅ ∅))
| cc_old_room conns ids :
    active_connections (connection_manager w) !! r = Some conns →
    room_members (connection_manager w) !! r = Some ids →
    connect_case w ws user r None (Ok tt (connected w ws user r conns ids))
| cc_raises conns :
    active_connections (connection_manager w) !! r = Some conns →
    room_members (connection_manager w) !! r = None →
    connect_case w ws user r None
      (Raise KeyError
        (set_connection_manager
           (ConnectionManager.set_active_connections
              (<[r := conns ∪ {[ws]}]> (active_connections (connection_manager w)))
              (connection_manager w))
           (set_trace (trace w ++ [Accept ws]) w))).

(** ** The listener's duty, in the words of the specification *)

(** What one event asks for: the room id after the first colon of the
    channel and the message its payload decodes to. *)
Definition decode_event (utcnow : datetime) (m : pubsub_message) : exn + (string * Message) :=
  match after_first_colon (channel m) with
  | None => inl IndexError
  | Some room_id =>
      match Message_from_json utcnow (data m) with
      | inl e => inl e
      | inr msg => inr (room_id, msg)
      end
  end.

(** An event that is not a data message is skipped; a data message is
    decoded and handed to the handler; a failure of either is logged and the
    event is dropped. *)
Definition deliver (call : Callable → string → Message → M unit)
    (utcnow : datetime) (w : World) (m : pubsub_message) : World :=
  if decide (type m = "message") then
    match decode_event utcnow m with
    | inl e => log_processing_error e w
    | inr (room_id, msg) =>
        match message_handler (redis_manager w) with
        | None => w
        | Some handler =>
            match call handler room_id msg w with
            | Ok _ w' => w'
            | Raise e w' => log_processing_error e w'
            end
        end
    end
  else w.

(** ** The text of an object, member by member *)

Fixpoint json_members (l : list (string * string)) : string :=
  match l with
  | [] => "}"
  | (k, v) :: l' =>
      json_member k v +:+
      match l' with
      | [] => "}"
      | _ :: _ => "," +:+ json_members l'
      end
  end.

Definition Message_members (m : Message) : list (string * string) :=
  [("user_id", user_id m); ("username", msg_username m); ("room_id", room_id m);
   ("content", content m); ("message_type", MessageType_value (message_type m));
   ("timestamp", isoformat (timestamp m))].

(** ** Scenarios *)

Definition world0 : World :=
  mkWorld ConnectionManager.init (RedisManager.init "redis://localhost:6379") ∅ ∅ [].

Definition noon : datetime := mkDatetime 2024 1 2 12 0 0 0.

(** The process after [lifespan] has started it. *)
Definition started : World := world_of (lifespan_startup None noon world0).

Definition alice := mkUser 1 "u-alice" "alice".
Definition bob := mkUser 2 "u-bob" "bob".
Definition carol := mkUser 3 "u-carol" "carol".

(** The same user on a second device: another [User] object, the same id. *)
Definition alice_laptop := mkUser 4 "u-alice" "alice".

Definition hello : Message := mkMessage "u-alice" "alice" "general" "hi" CHAT noon.

(** [alice] and [bob] in "general", [carol] in "random". *)
Definition chat_world : World :=
  run_all [Connect None 10 alice "general";
           Connect None 11 bob "general";
           Connect None 12 carol "random"] world0.

(** The socket 11 is broken. *)
Definition bob_is_gone (ws : WebSocket) : option exn :=
  if decide (ws = 11) then Some (RuntimeError "closed") else None.

(** [alice] joins the room whose id is the empty string, and leaves it. *)
Definition empty_room_world : World := step (Connect None 10 alice "") world0.
Definition left_empty_room_world : World := step (Disconnect 10) empty_room_world.

(** [alice] joins "general" from two devices and closes the first. *)
Definition two_devices : list op :=
  [Connect None 10 alice "general";
   Connect None 11 alice_laptop "general";
   Disconnect 10].

(** [bob] joins "general", says "hi", and then the read raises [last]. *)
Definition bob_request (last : exn) : Request :=
  mkRequest 10 (Some "bob") "general" "u-bob" 2 None None noon None
    [Text "hi" noon None; ReceiveRaises last] noon None.

Definition lobby_request : Request :=
  mkRequest 10 (Some "bob") "lobby" "u-bob" 2 None None noon None [] noon None.

Definition bob_join : Message :=
  mkMessage "u-bob" "bob" "general" "bob joined the room" JOIN noon.
Definition bob_hi : Message :=
  mkMessage "u-bob" "bob" "general" "hi" CHAT noon.
Definition bob_leave : Message :=
  mkMessage "u-bob" "bob" "general" "bob left the room" LEAVE noon.

(** A handler that fails on the room "boom" and logs every other call. *)
Definition fragile_handler (_ : Callable) (room_id : string) (msg : Message) : M unit :=
  if decide (room_id = "boom") then raise (RuntimeError "handler failed")
  else logger DEBUG ("handled " +:+ room_id +:+ ": " +:+ content msg).

(** A subscription notice, a payload that is no JSON, a channel without a
    colon, a message the handler fails on, and a message it takes. *)
Definition inbound : list pubsub_message :=
  [mkPubsubMessage "subscribe" "room:general" "1";
   mkPubsubMessage "message" "room:general" "not json";
   mkPubsubMessage "message" "general" (model_dump_json hello);
   mkPubsubMessage "message" "room:boom" (model_dump_json hello);
   mkPubsubMessage "message" "room:general" (model_dump_json hello)].

(** ** Member sets and user ids *)

(** Every session has a user id of its own, and the member set of a room
    holds the ids of the sessions of its connections, one for one. *)
Record members_inv (w : World) : Prop := {
  inv_ids_unique : ∀ ws1 ws2 u1 u2,
    user_sessions (connection_manager w) !! ws1 = Some u1 →
    user_sessions (connection_manager w) !! ws2 = Some u2 →
    id u1 = id u2 → ws1 = ws2;
  inv_members_sessions : ∀ r ids i,
    room_members (connection_manager w) !! r = Some ids → i ∈ ids →
    ∃ ws u, ws ∈ room_connections (connection_manager w) r
            ∧ user_sessions (connection_manager w) !! ws = Some u ∧ id u = i;
  inv_sessions_members : ∀ r ids ws u,
    room_members (connection_manager w) !! r = Some ids →
    ws ∈ room_connections (connection_manager w) r →
    user_sessions (connection_manager w) !! ws = Some u → id u ∈ ids;
  inv_sizes : ∀ r conns ids,
    active_connections (connection_manager w) !! r = Some conns →
    room_members (connection_manager w) !! r = Some ids →
    size ids = size conns
}.

(** ** What the gateway hands to the broker *)

Definition publish_attempt_of (ev : event) : option (string * string) :=
  match ev with
  | Publish channel payload | PublishFailed channel payload => Some (channel, payload)
  | _ => None
  end.

(** The payloads handed to the broker, taken or not, in order. *)
Definition publish_attempts (t : list event) : list (string * string) :=
  omap publish_attempt_of t.

(** [w'] comes from [w] by calls that hand the payloads [l] to the broker
    and leave the client of the relay in place. *)
Definition hands_over (l : list (string * string)) (w w' : World) : Prop :=
  redis_client (redis_manager w') = redis_client (redis_manager w)
  ∧ ∃ t, trace w' = trace w ++ t ∧ publish_attempts t = l.

Definition join_message (q : Request) : Message :=
  let username := default "Anonymous" (query_username q) in
  mkMessage (uuid4 q) username (path_room_id q) (username +:+ " joined the room")
    JOIN (join_utcnow q).

Definition leave_message (q : Request) : Message :=
  let username := default "Anonymous" (query_username q) in
  mkMessage (uuid4 q) username (path_room_id q) (username +:+ " left the room")
    LEAVE (leave_utcnow q).

Definition chat_message (q : Request) (frame : string * datetime * option exn) : Message :=
  mkMessage (uuid4 q) (default "Anonymous" (query_username q)) (path_room_id q)
    frame.1.1 CHAT frame.1.2.

Definition frame_step (frame : string * datetime * option exn) : receive_step :=
  Text frame.1.1 frame.1.2 frame.2.

Definition on_channel (q : Request) (m : Message) : string * string :=
  ("room:" +:+ path_room_id q, model_dump_json m).


(** ** Sessions, listings and more scenarios *)

(** What a registry offers to a connection and a user it does not know:
    rooms and member sets under the same keys, no empty room, no session and
    no room for the handle, and no member set with the id of the user. *)
Definition welcomes (c : ConnectionManager) (ws : WebSocket) (user : User) : Prop :=
  keys_agree c
  ∧ (∀ r conns, active_connections c !! r = Some conns → conns ≠ ∅)
  ∧ user_sessions c !! ws = None
  ∧ (∀ r, ws ∉ room_connections c r)
  ∧ (∀ r ids, room_members c !! r = Some ids → id user ∉ ids).

(** [w'] has the registry, the user objects and the room store of [w]. *)
Definition beside_registry (w w' : World) : Prop :=
  connection_manager w' = connection_manager w
  ∧ current_room w' = current_room w
  ∧ rooms_db w' = rooms_db w.

(** The [User] object [websocket_endpoint] builds for a request. *)
Definition request_user (q : Request) : User :=
  mkUser (user_obj q) (uuid4 q) (default "Anonymous" (query_username q)).

(** A stored room as a listing shows it with [n] members. *)
Definition listed (n : nat) (room : Room) : Room :=
  mkRoom (room_key room) (name room) (created_at room) n.


Definition dave := mkUser 5 "u-dave" "dave".

(** The started process with [alice] and [bob] in "general" and [carol] in
    "random". *)
Definition open_house : World :=
  run_all [Connect None 10 alice "general";
           Connect None 11 bob "general";
           Connect None 12 carol "random"] started.

(** The relay of the started process beside the registry of [chat_world]. *)
Definition relayed_chat : World := set_redis_manager (redis_manager started) chat_world.

(** [dave] joins "general", says "hi", and then the read raises [last]. *)
Definition dave_request (last : exn) : Request :=
  mkRequest 13 (Some "dave") "general" "u-dave" 5 None None noon None
    [Text "hi" noon None; ReceiveRaises last] noon None.

(** The handshake of [bob] fails. *)
Definition refused_request : Request :=
  mkRequest 10 (Some "bob") "general" "u-bob" 2 (Some (RuntimeError "reset"))
    None noon None [] noon None.

(** [dave] joins the room "r-1", says "hi", and stays. *)
Definition new_room_request : Request :=
  mkRequest 13 (Some "dave") "r-1" "u-dave" 5 None None noon None
    [Text "hi" noon None] noon None.

(** ** Proof tactics *)

Set Warnings "-clear-no-such-hyp".

(** The equations that move a string literal to the front of a text. *)
Create Rewrite HintDb str.

(** Division and remainder by constants, for [lia]. *)
Ltac Zify.zify_post_hook ::= Z.to_euclidean_division_equations.

(** Unfolding of the statements of the monad and of the two managers. *)
Ltac munfold :=
  unfold mbind, M_bind, mret, M_ret, raise, try_except, emit, logger,
    ConnectionManager.self, ConnectionManager.update in *.

Ltac cm_unfold :=
  unfold ConnectionManager.disconnect, ConnectionManager.connect,
    ConnectionManager.get_current_room, ConnectionManager.assign_current_room,
    ConnectionManager.accept, ConnectionManager.delitem_user_sessions,
    ConnectionManager.delitem_active_connections,
    ConnectionManager.delitem_room_members,
    ConnectionManager.getitem_active_connections,
    ConnectionManager.getitem_room_members,
    ConnectionManager.setitem_active_connections,
    ConnectionManager.setitem_room_members in *;
  munfold.

Ltac cm_fields :=
  unfold set_connection_manager, set_trace, set_current_room,
    ConnectionManager.set_active_connections, ConnectionManager.set_room_members,
    ConnectionManager.set_user_sessions, connected, log_connect, log_disconnect,
    emit; simpl.

Ltac rm_unfold :=
  unfold RedisManager.publish_message, RedisManager.subscribe_to_room,
    RedisManager.connect, RedisManager.from_url, RedisManager.redis_publish,
    RedisManager.pubsub_subscribe, RedisManager.self, RedisManager.update in *;
  unfold mbind, M_bind, mret, M_ret, raise, try_except, emit, logger in *.

(** * Proofs *)

(** ** The equations of [connect] and [disconnect] *)

Lemma set_trace_id w : set_trace (trace w) w = w.
Proof. by destruct w. Qed.

Lemma truthy_Some r : r ≠ "" → truthy (Some r) = true.
Proof. intros H. unfold truthy. destruct (decide (r = "")); congruence. Qed.

Lemma truthy_inv o : truthy o = true → ∃ r, o = Some r ∧ r ≠ "".
Proof.
  destruct o as [r|]; simpl; [|discriminate].
  destruct (decide (r = "")); [discriminate|]. eauto.
Qed.

Lemma disconnect_unknown w ws :
  user_sessions (connection_manager w) !! ws = None →
  ConnectionManager.disconnect ws w = Ok tt w.
Proof. intros H. cm_unfold. simpl. by rewrite H. Qed.

Lemma disconnect_no_room w ws user :
  user_sessions (connection_manager w) !! ws = Some user →
  truthy (current_room w !! obj user)
    && bool_decide (default "" (current_room w !! obj user)
                    ∈ dom (active_connections (connection_manager w))) = false →
  ConnectionManager.disconnect ws w =
    Ok tt (set_trace (trace w ++ [log_disconnect user (current_room w !! obj user)])
            (set_connection_manager
               (ConnectionManager.set_user_sessions
                  (delete ws (user_sessions (connection_manager w)))
                  (connection_manager w)) w)).
Proof.
  intros H Hg. cm_unfold. simpl. rewrite H, Hg. simpl. by rewrite H.
Qed.

Lemma disconnect_room w ws user r conns ids :
  user_sessions (connection_manager w) !! ws = Some user →
  current_room w !! obj user = Some r →
  r ≠ "" →
  active_connections (connection_manager w) !! r = Some conns →
  room_members (connection_manager w) !! r = Some ids →
  ConnectionManager.disconnect ws w =
    Ok tt (set_trace (trace w ++ [log_disconnect user (Some r)])
            (set_connection_manager
               (mkConnectionManager
                  (if decide (conns ∖ {[ws]} = ∅)
                   then delete r (active_connections (connection_manager w))
                   else <[r := conns ∖ {[ws]}]> (active_connections (connection_manager w)))
                  (delete ws (user_sessions (connection_manager w)))
                  (if decide (conns ∖ {[ws]} = ∅)
                   then delete r (room_members (connection_manager w))
                   else <[r := ids ∖ {[id user]}]> (room_members (connection_manager w))))
               w)).
Proof.
  intros Hs Hr Hne Hc Hm. cm_unfold. simpl.
  rewrite Hs, Hr, (truthy_Some r Hne). simpl.
  rewrite bool_decide_eq_true_2 by (apply elem_of_dom; eauto).
  rewrite Hc. simpl. rewrite Hm. simpl. rewrite lookup_insert_eq.
  destruct (decide (conns ∖ {[ws]} = ∅)) as [He|He]; simpl.
  - repeat (rewrite ?lookup_insert_eq, ?Hs; simpl).
    cm_fields. by rewrite !delete_insert_eq.
  - by rewrite Hs.
Qed.

Lemma disconnect_room_raises w ws user r conns :
  user_sessions (connection_manager w) !! ws = Some user →
  current_room w !! obj user = Some r →
  r ≠ "" →
  active_connections (connection_manager w) !! r = Some conns →
  room_members (connection_manager w) !! r = None →
  ConnectionManager.disconnect ws w =
    Raise KeyError
      (set_connection_manager
         (ConnectionManager.set_active_connections
            (<[r := conns ∖ {[ws]}]> (active_connections (connection_manager w)))
            (connection_manager w)) w).
Proof.
  intros Hs Hr Hne Hc Hm. cm_unfold. simpl.
  rewrite Hs, Hr, (truthy_Some r Hne). simpl.
  rewrite bool_decide_eq_true_2 by (apply elem_of_dom; eauto).
  rewrite Hc. simpl. by rewrite Hm.
Qed.

Lemma disconnect_cases w ws : disconnect_case w ws (ConnectionManager.disconnect ws w).
Proof.
  destruct (user_sessions (connection_manager w) !! ws) as [user|] eqn:Hs.
  2: { rewrite disconnect_unknown by done. by constructor. }
  destruct (truthy (current_room w !! obj user)
      && bool_decide (default "" (current_room w !! obj user)
                      ∈ dom (active_connections (connection_manager w)))) eqn:Hg.
  2: { rewrite (disconnect_no_room w ws user) by done. by eapply dc_no_room. }
  apply andb_true_iff in Hg as [Ht Hd].
  apply truthy_inv in Ht as (r & Hr & Hne). rewrite Hr in Hd. simpl in Hd.
  apply bool_decide_eq_true_1, elem_of_dom in Hd as [conns Hc].
  destruct (room_members (connection_manager w) !! r) as [ids|] eqn:Hm.
  - rewrite (disconnect_room w ws user r conns ids) by done. by eapply dc_room.
  - rewrite (disconnect_room_raises w ws user r conns) by done. by eapply dc_raises.
Qed.

Lemma connect_new_room w ws user r :
  active_connections (connection_manager w) !! r = None →
  ConnectionManager.connect None ws user r w = Ok tt (connected w ws user r ∅ ∅).
Proof.
  intros Hc. cm_unfold. simpl.
  rewrite decide_False by (rewrite elem_of_dom, Hc; intros [? ?]; congruence).
  simpl. rewrite !lookup_insert_eq. simpl. rewrite !lookup_insert_eq. simpl.
  rewrite !insert_insert_eq. cm_fields. by rewrite <- app_assoc.
Qed.

Lemma connect_old_room w ws user r conns ids :
  active_connections (connection_manager w) !! r = Some conns →
  room_members (connection_manager w) !! r = Some ids →
  ConnectionManager.connect None ws user r w = Ok tt (connected w ws user r conns ids).
Proof.
  intros Hc Hm. cm_unfold. simpl.
  rewrite decide_True by (rewrite elem_of_dom, Hc; eauto).
  simpl. rewrite Hc. simpl. rewrite Hm. simpl. cm_fields. by rewrite <- app_assoc.
Qed.

Lemma connect_old_room_raises w ws user r conns :
  active_connections (connection_manager w) !! r = Some conns →
  room_members (connection_manager w) !! r = None →
  ConnectionManager.connect None ws user r w =
    Raise KeyError
      (set_connection_manager
         (ConnectionManager.set_active_connections
            (<[r := conns ∪ {[ws]}]> (active_connections (connection_manager w)))
            (connection_manager w))
         (set_trace (trace w ++ [Accept ws]) w)).
Proof.
  intros Hc Hm. cm_unfold. simpl.
  rewrite decide_True by (rewrite elem_of_dom, Hc; eauto).
  simpl. rewrite Hc. simpl. by rewrite Hm.
Qed.

Lemma connect_cases w a ws user r :
  connect_case w ws user r a (ConnectionManager.connect a ws user r w).
Proof.
  destruct a as [e|]; [constructor|].
  destruct (active_connections (connection_manager w) !! r) as [conns|] eqn:Hc.
  - destruct (room_members (connection_manager w) !! r) as [ids|] eqn:Hm.
    + rewrite (connect_old_room w ws user r conns ids) by done. by eapply cc_old_room.
    + rewrite (connect_old_room_raises w ws user r conns) by done. by eapply cc_raises.
  - rewrite connect_new_room by done. by constructor.
Qed.

(** ** The first loop of [broadcast_to_room] *)

Lemma sweep_eq raises json l : ∀ D w,
  ConnectionManager.sweep raises json l D w =
    Ok (D ∪ sweep_failed raises l) (set_trace (trace w ++ sweep_events raises json l) w).
Proof.
  induction l as [|c l IH]; intros D w; simpl.
  - unfold sweep_failed. simpl. by rewrite (right_id_L ∅ (∪)), app_nil_r, set_trace_id.
  - unfold ConnectionManager.send_text. munfold. unfold sweep_failed in *. simpl.
    destruct (raises c) as [e|] eqn:Hc; simpl; rewrite IH; simpl.
    + rewrite filter_cons_True by (rewrite Hc; eauto). simpl.
      unfold set_trace at 1. simpl. rewrite <- !app_assoc. simpl.
      f_equal. set_solver.
    + rewrite filter_cons_False by (rewrite Hc; intros [? ?]; congruence).
      unfold set_trace at 1. simpl. by rewrite <- !app_assoc.
Qed.

Lemma broadcast_no_room w raises r message :
  active_connections (connection_manager w) !! r = None →
  ConnectionManager.broadcast_to_room raises r message w
  = Ok tt (set_trace (trace w ++ [log_no_room r]) w).
Proof. intros H. unfold ConnectionManager.broadcast_to_room. munfold. simpl. by rewrite H. Qed.

Lemma broadcast_room w raises r message conns :
  active_connections (connection_manager w) !! r = Some conns →
  ConnectionManager.broadcast_to_room raises r message w =
    for_each (elements (sweep_failed raises (elements conns))) ConnectionManager.disconnect
      (set_trace (trace w ++ sweep_events raises (model_dump_json message) (elements conns)) w).
Proof.
  intros H. unfold ConnectionManager.broadcast_to_room. munfold. simpl. rewrite H.
  rewrite sweep_eq. by rewrite (left_id_L ∅ (∪)).
Qed.

(** ** The two room maps have the same keys, and no operation raises *)

Lemma keys_agree_lookup c r conns :
  keys_agree c → active_connections c !! r = Some conns →
  ∃ ids, room_members c !! r = Some ids.
Proof.
  intros Hk Hc. apply (elem_of_dom (room_members c) r). rewrite <- Hk.
  apply elem_of_dom. eauto.
Qed.

Lemma disconnect_keys_agree w ws :
  keys_agree (connection_manager w) →
  returns (ConnectionManager.disconnect ws w) = true
  ∧ keys_agree (connection_manager (world_of (ConnectionManager.disconnect ws w))).
Proof.
  intros Hk.
  destruct (disconnect_cases w ws) as [|user|user r conns ids|user r conns ? ? ? Hc Hm];
    simpl; try done.
  - split; [done|]. unfold keys_agree in *. simpl.
    destruct (decide _); by rewrite ?dom_delete_L, ?dom_insert_L, Hk.
  - destruct (keys_agree_lookup _ _ _ Hk Hc) as [ids Hi]. congruence.
Qed.

Lemma for_each_disconnect_keys_agree l : ∀ w,
  keys_agree (connection_manager w) →
  returns (for_each l ConnectionManager.disconnect w) = true
  ∧ keys_agree (connection_manager (world_of (for_each l ConnectionManager.disconnect w))).
Proof.
  induction l as [|ws l IH]; intros w Hk; simpl; [done|].
  munfold. destruct (disconnect_keys_agree w ws Hk) as [Hr Hk'].
  destruct (ConnectionManager.disconnect ws w) as [[] w'|e w']; simpl in *; [|done].
  by apply IH.
Qed.

Lemma connect_keys_agree w a ws user r :
  keys_agree (connection_manager w) →
  keys_agree (connection_manager (world_of (ConnectionManager.connect a ws user r w)))
  ∧ (a = None → returns (ConnectionManager.connect a ws user r w) = true).
Proof.
  intros Hk.
  destruct (connect_cases w a ws user r) as [e| |conns ids|conns Hc Hm]; simpl; try done.
  - split; [|done]. unfold keys_agree in *; simpl. by rewrite !dom_insert_L, Hk.
  - split; [|done]. unfold keys_agree in *; simpl. by rewrite !dom_insert_L, Hk.
  - destruct (keys_agree_lookup _ _ _ Hk Hc) as [ids Hi]. congruence.
Qed.

Lemma broadcast_keys_agree w raises r message :
  keys_agree (connection_manager w) →
  returns (ConnectionManager.broadcast_to_room raises r message w) = true
  ∧ keys_agree (connection_manager
                  (world_of (ConnectionManager.broadcast_to_room raises r message w))).
Proof.
  intros Hk. destruct (active_connections (connection_manager w) !! r) as [conns|] eqn:Hc.
  - rewrite (broadcast_room _ _ _ _ conns) by done.
    by apply for_each_disconnect_keys_agree.
  - by rewrite broadcast_no_room.
Qed.

Lemma reachable_keys_agree w :
  reachable_by (λ _ _, True) w → keys_agree (connection_manager w).
Proof.
  induction 1 as [w Hi|w o _ IH _].
  - by rewrite Hi.
  - destruct o as [a ws user r|ws|raises r m]; unfold step; simpl.
    + by apply connect_keys_agree.
    + by apply disconnect_keys_agree.
    + by apply broadcast_keys_agree.
Qed.

(** ** What the operations write to the trace *)

Lemma only_logs_refl w : only_logs w w.
Proof. exists []. by rewrite app_nil_r. Qed.

Lemma only_logs_trans w1 w2 w3 : only_logs w1 w2 → only_logs w2 w3 → only_logs w1 w3.
Proof.
  intros (t & Ht & Hl) (t' & Ht' & Hl'). exists (t ++ t').
  rewrite Ht', Ht, app_assoc. split; [done|].
  by rewrite forallb_app, Hl, Hl'.
Qed.

Lemma disconnect_only_logs w ws :
  only_logs w (world_of (ConnectionManager.disconnect ws w)).
Proof.
  destruct (disconnect_cases w ws); simpl.
  - apply only_logs_refl.
  - by eexists [_].
  - by eexists [_].
  - exists []. by rewrite app_nil_r.
Qed.

Lemma for_each_disconnect_only_logs l : ∀ w,
  only_logs w (world_of (for_each l ConnectionManager.disconnect w)).
Proof.
  induction l as [|ws l IH]; intros w; simpl.
  - apply only_logs_refl.
  - munfold. pose proof (disconnect_only_logs w ws) as H.
    destruct (ConnectionManager.disconnect ws w) as [[] w'|e w']; simpl in *; [|done].
    eapply only_logs_trans; [exact H|apply IH].
Qed.

Lemma attempts_app t1 t2 : attempts (t1 ++ t2) = attempts t1 ++ attempts t2.
Proof. apply omap_app. Qed.

Lemma deliveries_app t1 t2 : deliveries (t1 ++ t2) = deliveries t1 ++ deliveries t2.
Proof. apply omap_app. Qed.

Lemma attempts_logs t : forallb is_log t = true → attempts t = [].
Proof.
  induction t as [|ev t IH]; simpl; [done|].
  intros [He Ht]%andb_true_iff. destruct ev; try done. simpl. by apply IH.
Qed.

Lemma deliveries_logs t : forallb is_log t = true → deliveries t = [].
Proof.
  induction t as [|ev t IH]; simpl; [done|].
  intros [He Ht]%andb_true_iff. destruct ev; try done. simpl. by apply IH.
Qed.

Lemma attempts_sweep raises json l : attempts (sweep_events raises json l) = l.
Proof.
  induction l as [|c l IH]; [done|].
  simpl. rewrite attempts_app, IH. by destruct (raises c).
Qed.

Lemma deliveries_sweep raises json l :
  deliveries (sweep_events raises json l)
  = (λ c, (c, json)) <$> filter (λ c, raises c = None) l.
Proof.
  induction l as [|c l IH]; [done|].
  simpl. rewrite deliveries_app, IH.
  destruct (raises c) as [e|] eqn:Hc.
  - by rewrite filter_cons_False by congruence.
  - by rewrite filter_cons_True by done.
Qed.

Lemma new_events_app w w' t : trace w' = trace w ++ t → new_events w w' = t.
Proof. intros H. unfold new_events. by rewrite H, drop_app_length. Qed.

(** What [broadcast_to_room] appends to the trace when the room exists. *)
Lemma broadcast_trace w raises r message conns :
  active_connections (connection_manager w) !! r = Some conns →
  ∃ logs,
    new_events w (world_of (ConnectionManager.broadcast_to_room raises r message w))
    = sweep_events raises (model_dump_json message) (elements conns) ++ logs
    ∧ forallb is_log logs = true.
Proof.
  intros Hc. rewrite (broadcast_room _ _ _ _ conns) by done.
  destruct (for_each_disconnect_only_logs
    (elements (sweep_failed raises (elements conns)))
    (set_trace (trace w ++ sweep_events raises (model_dump_json message) (elements conns)) w))
    as (logs & Ht & Hl).
  exists logs. split; [|done]. apply new_events_app. rewrite Ht. simpl.
  by rewrite app_assoc.
Qed.

Lemma disconnect_forgets w ws :
  keys_agree (connection_manager w) →
  returns (ConnectionManager.disconnect ws w) = true
  ∧ ConnectionManager.get_user_info
      (connection_manager (world_of (ConnectionManager.disconnect ws w))) ws = None.
Proof.
  intros Hk. unfold ConnectionManager.get_user_info.
  destruct (disconnect_cases w ws) as [| | |user r conns ? ? ? Hc Hm]; simpl;
    rewrite ?lookup_delete_eq; try done.
  destruct (keys_agree_lookup _ _ _ Hk Hc) as [ids Hi]. congruence.
Qed.

(** ** The invariant of the registry *)

Lemma room_connections_insert ac us rm r r' conns :
  room_connections (mkConnectionManager (<[r := conns]> ac) us rm) r'
  = if decide (r = r') then conns else room_connections (mkConnectionManager ac us rm) r'.
Proof.
  unfold room_connections; simpl. rewrite lookup_insert.
  by destruct (decide (r = r')).
Qed.

Lemma room_connections_delete ac us rm r r' :
  room_connections (mkConnectionManager (delete r ac) us rm) r'
  = if decide (r = r') then ∅ else room_connections (mkConnectionManager ac us rm) r'.
Proof.
  unfold room_connections; simpl. rewrite lookup_delete.
  by destruct (decide (r = r')).
Qed.

Lemma room_connections_Some c r conns :
  active_connections c !! r = Some conns → room_connections c r = conns.
Proof. unfold room_connections. by intros ->. Qed.

Lemma room_connections_None c r :
  active_connections c !! r = None → room_connections c r = ∅.
Proof. unfold room_connections. by intros ->. Qed.

Lemma room_connections_elem c r ws :
  ws ∈ room_connections c r →
  ∃ conns, active_connections c !! r = Some conns ∧ ws ∈ conns.
Proof.
  unfold room_connections. destruct (active_connections c !! r) as [conns|]; simpl.
  - eauto.
  - set_solver.
Qed.

Lemma init_inv w : connection_manager w = ConnectionManager.init → registry_inv w.
Proof.
  intros Hi. split; rewrite Hi; simpl.
  - done.
  - intros r conns. by rewrite lookup_empty.
  - intros r ws. unfold room_connections. simpl. rewrite lookup_empty. set_solver.
  - intros ws user. by rewrite lookup_empty.
Qed.

Lemma set_trace_inv t w : registry_inv w → registry_inv (set_trace t w).
Proof. intros [? ? ? ?]. by split. Qed.

Lemma disconnect_inv w ws :
  registry_inv w → registry_inv (world_of (ConnectionManager.disconnect ws w)).
Proof.
  intros [Hk Hne Hcs Hsc].
  destruct (disconnect_cases w ws)
    as [|user Hs Hg|user r conns ids Hs Hr Hnr Hc Hm|user r conns Hs Hr Hnr Hc Hm]; simpl.
  - done.
  - (* the guard cannot fail here: the session's room has an entry *)
    destruct (Hsc _ _ Hs) as (r & Hr & Hnr & Hin).
    apply room_connections_elem in Hin as (conns & Hc & _).
    rewrite Hr, truthy_Some in Hg by done. cbn [default andb] in Hg.
    by rewrite bool_decide_eq_true_2 in Hg by (apply elem_of_dom; eauto).
  - destruct (connection_manager w) as [ac us rm] eqn:Hcm; simpl in *.
    assert (Hws : ∀ r', ws ∈ room_connections (mkConnectionManager ac us rm) r' → r' = r).
    { intros r' Hin. destruct (Hcs _ _ Hin) as (u & Hu & Hru). congruence. }
    split; simpl.
    + unfold keys_agree in *; simpl in *.
      destruct (decide _); by rewrite ?dom_delete_L, ?dom_insert_L, Hk.
    + intros r' conns'. destruct (decide (conns ∖ {[ws]} = ∅)) as [He|He].
      * rewrite lookup_delete. destruct (decide (r = r')); [done|]. apply Hne.
      * rewrite lookup_insert. destruct (decide (r = r')); [congruence|]. apply Hne.
    + intros r' ws' Hin.
      assert (ws' ∈ room_connections (mkConnectionManager ac us rm) r' ∧ ws' ≠ ws)
        as [Hin' Hneq].
      { destruct (decide (conns ∖ {[ws]} = ∅)) as [He|He].
        - rewrite room_connections_delete in Hin.
          destruct (decide (r = r')); [set_solver|].
          split; [done|]. intros ->. apply Hws in Hin. congruence.
        - rewrite room_connections_insert in Hin.
          destruct (decide (r = r')) as [<-|].
          + rewrite (room_connections_Some _ r conns) by done. set_solver.
          + split; [done|]. intros ->. apply Hws in Hin. congruence. }
      destruct (Hcs _ _ Hin') as (u & Hu & Hru). exists u.
      by rewrite lookup_delete_ne.
    + intros ws' u Hu. apply lookup_delete_Some in Hu as [Hneq Hu].
      destruct (Hsc _ _ Hu) as (r' & Hr' & Hnr' & Hin). exists r'.
      split; [done|]. split; [done|].
      destruct (decide (conns ∖ {[ws]} = ∅)) as [He|He].
      * rewrite room_connections_delete. destruct (decide (r = r')) as [<-|]; [|done].
        rewrite (room_connections_Some _ r conns) in Hin by done. set_solver.
      * rewrite room_connections_insert. destruct (decide (r = r')) as [<-|]; [|done].
        rewrite (room_connections_Some _ r conns) in Hin by done. set_solver.
  - destruct (keys_agree_lookup _ _ _ Hk Hc) as [ids Hi]. congruence.
Qed.

Lemma connected_inv w ws user r conns ids :
  registry_inv w → fresh_session w (Connect None ws user r) →
  room_connections (connection_manager w) r = conns →
  registry_inv (connected w ws user r conns ids).
Proof.
  intros [Hk Hne Hcs Hsc] (Hfresh & Hobj & Hnr) Hconns.
  apply not_elem_of_dom in Hfresh.
  assert (Hnotin : ∀ r', ws ∉ room_connections (connection_manager w) r').
  { intros r' Hin. destruct (Hcs _ _ Hin) as (u & Hu & _). congruence. }
  unfold connected.
  destruct (connection_manager w) as [ac us rm] eqn:Hcm; simpl in *.
  split; simpl.
  - unfold keys_agree in *; simpl in *. by rewrite !dom_insert_L, Hk.
  - intros r' conns'. rewrite lookup_insert.
    destruct (decide (r = r')); [|apply Hne]. intros [= <-]. set_solver.
  - intros r' ws'. rewrite room_connections_insert.
    destruct (decide (r = r')) as [<-|Hrr].
    + intros [Hin| ->%elem_of_singleton]%elem_of_union.
      * rewrite <- Hconns in Hin. destruct (Hcs _ _ Hin) as (u & Hu & Hru).
        exists u. rewrite lookup_insert_ne by congruence.
        split; [done|]. rewrite lookup_insert_ne; [done|]. by eapply not_eq_sym, Hobj.
      * exists user. by rewrite !lookup_insert_eq.
    + intros Hin. destruct (Hcs _ _ Hin) as (u & Hu & Hru).
      exists u. rewrite lookup_insert_ne by (intros ->; by eapply Hnotin).
      split; [done|]. rewrite lookup_insert_ne; [done|]. by eapply not_eq_sym, Hobj.
  - intros ws' u. rewrite lookup_insert. destruct (decide (ws = ws')) as [<-|Hww].
    + intros [= <-]. exists r. rewrite lookup_insert_eq, room_connections_insert.
      rewrite decide_True by done. set_solver.
    + intros Hu. destruct (Hsc _ _ Hu) as (r' & Hr' & Hnr' & Hin). exists r'.
      rewrite lookup_insert_ne by (by eapply not_eq_sym, Hobj).
      split; [done|]. split; [done|]. rewrite room_connections_insert.
      destruct (decide (r = r')) as [<-|]; [|done]. set_solver.
Qed.

Lemma connect_inv w a ws user r :
  registry_inv w → fresh_session w (Connect a ws user r) →
  registry_inv (world_of (ConnectionManager.connect a ws user r w)).
Proof.
  intros Hinv Hf.
  destruct (connect_cases w a ws user r) as [e|Hc|conns ids Hc Hm|conns Hc Hm]; simpl.
  - done.
  - apply connected_inv; [done|done|]. by apply room_connections_None.
  - apply connected_inv; [done|done|]. by apply room_connections_Some.
  - destruct (keys_agree_lookup _ _ _ (inv_keys w Hinv) Hc) as [ids Hi]. congruence.
Qed.

Lemma for_each_disconnect_inv l : ∀ w,
  registry_inv w → registry_inv (world_of (for_each l ConnectionManager.disconnect w)).
Proof.
  induction l as [|ws l IH]; intros w Hi; simpl; [done|].
  unfold mbind, M_bind. pose proof (disconnect_inv w ws Hi) as H.
  destruct (ConnectionManager.disconnect ws w) as [[] w'|e w']; simpl in *; [|done].
  by apply IH.
Qed.

Lemma broadcast_inv w raises r message :
  registry_inv w →
  registry_inv (world_of (ConnectionManager.broadcast_to_room raises r message w)).
Proof.
  intros Hi. destruct (active_connections (connection_manager w) !! r) as [conns|] eqn:Hc.
  - rewrite (broadcast_room _ _ _ _ conns) by done.
    by apply for_each_disconnect_inv, set_trace_inv.
  - rewrite broadcast_no_room by done. by apply set_trace_inv.
Qed.

Lemma reachable_inv w : reachable_by fresh_session w → registry_inv w.
Proof.
  induction 1 as [w Hi|w o _ IH Hf].
  - by apply init_inv.
  - destruct o as [a ws user r|ws|raises r m]; unfold step; simpl.
    + by apply connect_inv.
    + by apply disconnect_inv.
    + by apply broadcast_inv.
Qed.

(** ** Member counts with a user id per connection *)

Lemma init_members_inv w :
  connection_manager w = ConnectionManager.init → members_inv w.
Proof.
  intros Hi. split; rewrite Hi; simpl; intros *; by rewrite lookup_empty.
Qed.

Lemma set_trace_members_inv t w : members_inv w → members_inv (set_trace t w).
Proof. intros [? ? ? ?]. by split. Qed.

Lemma disconnect_members_inv w ws :
  registry_inv w → members_inv w →
  members_inv (world_of (ConnectionManager.disconnect ws w)).
Proof.
  intros [Hk Hne Hcs Hsc] [Hu Hms Hsm Hsz].
  destruct (disconnect_cases w ws)
    as [|user Hs Hg|user r conns ids Hs Hr Hnr Hc Hm|user r conns Hs Hr Hnr Hc Hm]; simpl.
  - done.
  - destruct (Hsc _ _ Hs) as (r & Hr & Hnr & Hin).
    apply room_connections_elem in Hin as (conns & Hc & _).
    rewrite Hr, truthy_Some in Hg by done. cbn [default andb] in Hg.
    by rewrite bool_decide_eq_true_2 in Hg by (apply elem_of_dom; eauto).
  - assert (Hwsin : ws ∈ conns).
    { destruct (Hsc _ _ Hs) as (r' & Hr' & _ & Hin).
      assert (r' = r) as -> by congruence.
      by rewrite (room_connections_Some _ r conns) in Hin. }
    destruct (connection_manager w) as [ac us rm] eqn:Hcm; simpl in *.
    split; simpl.
    + intros ws1 ws2 u1 u2 [_ H1]%lookup_delete_Some [_ H2]%lookup_delete_Some. eauto.
    + intros r' ids' i Hids Hi.
      assert (∃ ids0, rm !! r' = Some ids0 ∧ i ∈ ids0 ∧ (r' = r → i ≠ id user))
        as (ids0 & Hids0 & Hi0 & Hneq).
      { destruct (decide (conns ∖ {[ws]} = ∅)).
        - apply lookup_delete_Some in Hids as [Hrr Hids].
          exists ids'. by repeat split.
        - rewrite lookup_insert in Hids. destruct (decide (r = r')) as [<-|].
          + injection Hids as <-. exists ids. set_solver.
          + exists ids'. by repeat split. }
      destruct (Hms _ _ _ Hids0 Hi0) as (ws' & u' & Hin & Hs' & Hid).
      assert (ws' ≠ ws).
      { intros ->. assert (u' = user) as -> by congruence.
        destruct (Hcs _ _ Hin) as (u'' & Hu'' & Hr''). 
        assert (u'' = user) as -> by congruence. apply Hneq; congruence. }
      exists ws', u'. rewrite lookup_delete_ne by done. split; [|done].
      destruct (decide (conns ∖ {[ws]} = ∅)).
      * rewrite room_connections_delete. destruct (decide (r = r')) as [<-|]; [|done].
        rewrite (room_connections_Some _ r conns) in Hin by done. set_solver.
      * rewrite room_connections_insert. destruct (decide (r = r')) as [<-|]; [|done].
        rewrite (room_connections_Some _ r conns) in Hin by done. set_solver.
    + intros r' ids' ws' u' Hids Hin [Hneq Hs']%lookup_delete_Some.
      destruct (decide (conns ∖ {[ws]} = ∅)).
      * apply lookup_delete_Some in Hids as [Hrr Hids].
        rewrite room_connections_delete, decide_False in Hin by done. eauto.
      * rewrite lookup_insert in Hids. rewrite room_connections_insert in Hin.
        destruct (decide (r = r')) as [<-|]; [|by eauto].
        injection Hids as <-.
        assert (id u' ∈ ids).
        { apply (Hsm r ids ws' u'); [done| |done].
          rewrite (room_connections_Some _ r conns) by done. set_solver. }
        assert (id u' ≠ id user) by (intros Heq; apply Hneq; symmetry; eauto).
        set_solver.
    + intros r' conns' ids' Hc' Hm'.
      destruct (decide (conns ∖ {[ws]} = ∅)).
      * apply lookup_delete_Some in Hc' as [Hrr Hc'].
        apply lookup_delete_Some in Hm' as [_ Hm']. eauto.
      * rewrite lookup_insert in Hc'. rewrite lookup_insert in Hm'. destruct (decide (r = r')) as [<-|]; [|by eauto].
        injection Hc' as <-. injection Hm' as <-.
        assert (id user ∈ ids).
        { apply (Hsm r ids ws user); [done| |done].
          by rewrite (room_connections_Some _ r conns). }
        rewrite !size_difference by set_solver. rewrite !size_singleton.
        by rewrite (Hsz r conns ids).
  - destruct (keys_agree_lookup _ _ _ Hk Hc) as [ids Hi]. congruence.
Qed.

Lemma connected_members_inv w ws user r conns ids :
  registry_inv w → members_inv w → fresh_user w (Connect None ws user r) →
  room_connections (connection_manager w) r = conns →
  default ∅ (room_members (connection_manager w) !! r) = ids →
  members_inv (connected w ws user r conns ids).
Proof.
  intros [Hk Hne Hcs Hsc] [Hu Hms Hsm Hsz] [(Hfresh & Hobj & Hnr) Hid] Hconns Hids.
  apply not_elem_of_dom in Hfresh.
  assert (Hold : ∀ r' ws', ws' ∈ room_connections (connection_manager w) r' → ws' ≠ ws).
  { intros r' ws' Hin ->. destruct (Hcs _ _ Hin) as (u & Hu' & _). congruence. }
  assert (Hnew : id user ∉ ids).
  { intros Hin. destruct (room_members (connection_manager w) !! r) as [ids0|] eqn:Hm;
      simpl in Hids; subst ids; [|set_solver].
    destruct (Hms _ _ _ Hm Hin) as (ws' & u' & _ & Hs' & Hi). by eapply Hid. }
  assert (Hsize : size ids = size conns).
  { destruct (active_connections (connection_manager w) !! r) as [conns0|] eqn:Hc.
    - destruct (keys_agree_lookup _ _ _ Hk Hc) as [ids0 Hm].
      rewrite Hm in Hids. rewrite (room_connections_Some _ _ _ Hc) in Hconns.
      simpl in Hids. subst. eauto.
    - assert (room_members (connection_manager w) !! r = None) as Hm.
      { apply not_elem_of_dom. rewrite <- Hk. by apply not_elem_of_dom. }
      rewrite Hm in Hids. rewrite (room_connections_None _ _ Hc) in Hconns.
      simpl in Hids. by subst. }
  unfold connected.
  destruct (connection_manager w) as [ac us rm] eqn:Hcm; simpl in *.
  split; simpl.
  - intros ws1 ws2 u1 u2. rewrite !lookup_insert.
    destruct (decide (ws = ws1)) as [<-|], (decide (ws = ws2)) as [<-|]; try done.
    + intros [= <-] H2 Heq. exfalso. by eapply Hid.
    + intros H1 [= <-] Heq. exfalso. by eapply Hid.
    + eauto.
  - intros r' ids' i. rewrite lookup_insert, room_connections_insert.
    destruct (decide (r = r')) as [<-|Hrr].
    + intros [= <-] [Hi| ->%elem_of_singleton]%elem_of_union.
      * destruct (rm !! r) as [ids0|] eqn:Hm; simpl in Hids; subst ids; [|set_solver].
        destruct (Hms _ _ _ Hm Hi) as (ws' & u' & Hin & Hs' & Hi').
        exists ws', u'. rewrite lookup_insert_ne by (apply not_eq_sym; by eapply Hold).
        subst conns. set_solver.
      * exists ws, user. rewrite lookup_insert_eq. set_solver.
    + intros Hm Hi. destruct (Hms _ _ _ Hm Hi) as (ws' & u' & Hin & Hs' & Hi').
      exists ws', u'. by rewrite lookup_insert_ne by (apply not_eq_sym; by eapply Hold).
  - intros r' ids' ws' u'. rewrite !lookup_insert, room_connections_insert.
    destruct (decide (r = r')) as [<-|Hrr].
    + intros [= <-] Hin. destruct (decide (ws = ws')) as [<-|Hww].
      * intros [= <-]. set_solver.
      * intros Hs'. apply elem_of_union in Hin as [Hin|Hin]; [|set_solver].
        subst conns. apply room_connections_elem in Hin as Hin'.
        destruct Hin' as (conns0 & Hc & _).
        destruct (keys_agree_lookup _ _ _ Hk Hc) as [ids0 Hm]. simpl in Hm.
        rewrite Hm in Hids. simpl in Hids. subst ids0.
        apply elem_of_union_l. by eapply Hsm.
    + intros Hm Hin. rewrite decide_False by (by eapply not_eq_sym, Hold). eauto.
  - intros r' conns' ids'. rewrite !lookup_insert.
    destruct (decide (r = r')) as [<-|Hrr]; [|by eauto].
    intros [= <-] [= <-].
    assert (ws ∉ conns).
    { intros Hin. subst conns. by eapply Hold. }
    rewrite !size_union by set_solver. by rewrite !size_singleton, Hsize.
Qed.

Lemma connect_members_inv w a ws user r :
  registry_inv w → members_inv w → fresh_user w (Connect a ws user r) →
  members_inv (world_of (ConnectionManager.connect a ws user r w)).
Proof.
  intros Hinv Hmem Hf.
  destruct (connect_cases w a ws user r) as [e|Hc|conns ids Hc Hm|conns Hc Hm]; simpl.
  - done.
  - apply connected_members_inv; [done|done|done|by apply room_connections_None|].
    assert (room_members (connection_manager w) !! r = None) as ->; [|done].
    apply not_elem_of_dom. rewrite <- (inv_keys w Hinv). by apply not_elem_of_dom.
  - apply connected_members_inv; [done|done|done|by apply room_connections_Some|].
    by rewrite Hm.
  - destruct (keys_agree_lookup _ _ _ (inv_keys w Hinv) Hc) as [ids Hi]. congruence.
Qed.

Lemma for_each_disconnect_members_inv l : ∀ w,
  registry_inv w → members_inv w →
  members_inv (world_of (for_each l ConnectionManager.disconnect w)).
Proof.
  induction l as [|ws l IH]; intros w Hi Hm; simpl; [done|].
  unfold mbind, M_bind.
  pose proof (disconnect_inv w ws Hi) as H. pose proof (disconnect_members_inv w ws Hi Hm) as H'.
  destruct (ConnectionManager.disconnect ws w) as [[] w'|e w']; simpl in *; [|done].
  by apply IH.
Qed.

Lemma fresh_user_session w o : fresh_user w o → fresh_session w o.
Proof. by intros [? _]. Qed.

Lemma reachable_fresh_user_session w :
  reachable_by fresh_user w → reachable_by fresh_session w.
Proof.
  induction 1 as [w Hi|w o _ IH Hf]; [by apply reachable_init|].
  apply reachable_step; [done|by apply fresh_user_session].
Qed.

Lemma reachable_members_inv w : reachable_by fresh_user w → members_inv w.
Proof.
  induction 1 as [w Hi|w o Hw IH Hf].
  - by apply init_members_inv.
  - pose proof (reachable_inv w (reachable_fresh_user_session w Hw)) as Hinv.
    destruct o as [a ws user r|ws|raises r m]; unfold step; simpl.
    + by apply connect_members_inv.
    + by apply disconnect_members_inv.
    + destruct (active_connections (connection_manager w) !! r) as [conns|] eqn:Hc.
      * rewrite (broadcast_room _ _ _ _ conns) by done.
        apply for_each_disconnect_members_inv;
          [by apply set_trace_inv|by apply set_trace_members_inv].
      * rewrite broadcast_no_room by done. by apply set_trace_members_inv.
Qed.

(** X1.  With a user id of its own for every connection, the count is the number
    of connections of the room and the number of distinct ids among them,
    and a room whose count is 0 has no entry in either map. *)
Theorem member_count_one_id_per_connection w room :
  reachable_by fresh_user w →
  let c := connection_manager w in
  ConnectionManager.get_room_member_count c room = size (room_connections c room)
  ∧ ConnectionManager.get_room_member_count c room = size (connected_user_ids c room)
  ∧ (size (connected_user_ids c room) = 0 →
       active_connections c !! room = None ∧ room_members c !! room = None).
Proof.
  intros Hreach c.
  pose proof (reachable_inv w (reachable_fresh_user_session w Hreach)) as [Hk Hne Hcs Hsc].
  pose proof (reachable_members_inv w Hreach) as [Hu Hms Hsm Hsz].
  fold c in Hk, Hne, Hcs, Hsc, Hu, Hms, Hsm, Hsz.
  assert (Hcount : ConnectionManager.get_room_member_count c room
                   = size (room_connections c room)).
  { unfold ConnectionManager.get_room_member_count, room_connections.
    destruct (active_connections c !! room) as [conns|] eqn:Hc.
    - destruct (keys_agree_lookup _ _ _ Hk Hc) as [ids Hm]. rewrite Hm. simpl. eauto.
    - assert (room_members c !! room = None) as ->; [|done].
      apply not_elem_of_dom. rewrite <- Hk. by apply not_elem_of_dom. }
  assert (Hids : default ∅ (room_members c !! room) = connected_user_ids c room).
  { apply set_eq. intros i. unfold connected_user_ids.
    rewrite elem_of_list_to_set, list_elem_of_omap. split.
    - destruct (room_members c !! room) as [ids|] eqn:Hm; simpl; [|set_solver].
      intros Hi. destruct (Hms _ _ _ Hm Hi) as (ws & u & Hin & Hs & Hid).
      exists ws. rewrite elem_of_elements, Hs. simpl. by rewrite Hid.
    - intros (ws & Hin%elem_of_elements & Hs).
      destruct (user_sessions c !! ws) as [u|] eqn:Hsu; simpl in Hs; [|done].
      injection Hs as <-.
      apply room_connections_elem in Hin as Hin'. destruct Hin' as (conns & Hc & _).
      destruct (keys_agree_lookup _ _ _ Hk Hc) as [ids Hm]. rewrite Hm. simpl.
      by eapply Hsm. }
  split; [done|]. split.
  - unfold ConnectionManager.get_room_member_count. by rewrite Hids.
  - intros Hz. rewrite <- Hids in Hz.
    change (ConnectionManager.get_room_member_count c room = 0) in Hz.
    rewrite Hcount in Hz. apply size_empty_inv in Hz.
    assert (active_connections c !! room = None) as Hc.
    { destruct (active_connections c !! room) as [conns|] eqn:Hc; [|done].
      exfalso. apply (Hne room conns Hc). apply leibniz_equiv.
      by rewrite (room_connections_Some _ _ _ Hc) in Hz. }
    split; [done|]. apply not_elem_of_dom. rewrite <- Hk. by apply not_elem_of_dom.
Qed.

Lemma chat_world_fresh_user : reachable_by fresh_user chat_world.
Proof.
  repeat (apply reachable_step); [by apply reachable_init|..];
    (split; [split; [by vm_compute|]; split; [|done]|]; intros ws' u' Hu Heq).
  - by vm_compute in Hu.
  - by vm_compute in Hu.
  - apply (elem_of_map_to_list (user_sessions _)) in Hu.
    vm_compute in Hu. set_solver.
  - apply (elem_of_map_to_list (user_sessions _)) in Hu.
    vm_compute in Hu. set_solver.
  - apply (elem_of_map_to_list (user_sessions _)) in Hu.
    vm_compute in Hu. set_solver.
  - apply (elem_of_map_to_list (user_sessions _)) in Hu.
    vm_compute in Hu. set_solver.
Qed.

Lemma chat_world_reachable : reachable_by fresh_session chat_world.
Proof. exact (reachable_fresh_user_session chat_world chat_world_fresh_user). Qed.

Lemma member_count_one_id_per_connection_witness :
  reachable_by fresh_user chat_world
  ∧ ConnectionManager.get_room_member_count (connection_manager chat_world) "general"
    = size (connected_user_ids (connection_manager chat_world) "general").
Proof.
  split; [exact chat_world_fresh_user|].
  exact (proj1 (proj2 (member_count_one_id_per_connection chat_world "general"
                         chat_world_fresh_user))).
Defined.

(** ** No operation of the registry raises *)

Lemma reachable_weaken (allowed allowed' : World → op → Prop) w :
  (∀ w o, allowed w o → allowed' w o) →
  reachable_by allowed w → reachable_by allowed' w.
Proof.
  intros Hsub. induction 1 as [w Hi|w o _ IH Hf]; [by apply reachable_init|].
  apply reachable_step; [done|by apply Hsub].
Qed.

(** X2.  In every state reached from a fresh registry by [connect], [disconnect]
    and [broadcast_to_room] with any arguments, [active_connections] and
    [room_members] have the same keys; so [disconnect] and
    [broadcast_to_room] return normally, and so does [connect] once the
    websocket is accepted: the [KeyError] of a missing room cannot occur. *)
Theorem registry_never_raises w :
  reachable_by (λ _ _, True) w →
  keys_agree (connection_manager w)
  ∧ (∀ ws, returns (ConnectionManager.disconnect ws w) = true)
  ∧ (∀ raises room message,
       returns (ConnectionManager.broadcast_to_room raises room message w) = true)
  ∧ (∀ ws user room, returns (ConnectionManager.connect None ws user room w) = true).
Proof.
  intros Hk%reachable_keys_agree. split; [done|]. split; [|split].
  - intros ws. by apply disconnect_keys_agree.
  - intros raises room message. by apply broadcast_keys_agree.
  - intros ws user room. by apply connect_keys_agree.
Qed.

Lemma registry_never_raises_witness :
  reachable_by (λ _ _, True) chat_world
  ∧ returns (ConnectionManager.disconnect 11 chat_world) = true.
Proof.
  assert (H : reachable_by (λ _ _, True) chat_world).
  { by apply (reachable_weaken fresh_session), chat_world_reachable. }
  split; [exact H|]. exact (proj1 (proj2 (registry_never_raises chat_world H)) 11).
Defined.

(** ** The registry: member counts (C1) *)

(** C1 (the code departs from it).  After [alice] has connected to "general"
    from two devices, each with a handle and a [User] object of its own, and
    the first device has disconnected, the second connection is still
    registered with its session, so one distinct user id is connected; yet
    [disconnect] has discarded that id from [room_members], and
    [get_room_member_count] answers 0. *)
Theorem member_count_forgets_second_device :
  let c := connection_manager (run_all two_devices world0) in
  reachable_by fresh_session (run_all two_devices world0)
  ∧ room_connections c "general" = {[11]}
  ∧ ConnectionManager.get_user_info c 11 = Some alice_laptop
  ∧ connected_user_ids c "general" = {[ "u-alice" ]}
  ∧ size (connected_user_ids c "general") = 1
  ∧ ConnectionManager.get_room_member_count c "general" = 0.
Proof.
  split.
  { repeat (apply reachable_step); [by apply reachable_init| | |done].
    - split; [by vm_compute|]. split; [|done]. intros ws' u'. by vm_compute.
    - split; [by vm_compute|]. split; [|done]. intros ws' u'.
      unfold step, run. rewrite connect_new_room by done. simpl.
      rewrite lookup_insert. case_decide; [|by rewrite lookup_empty].
      by intros [= <-]. }
  repeat split; by vm_compute.
Qed.

(** ** The registry: consistency of the three maps (C3) *)

(** C3 (amended).  In every state reached from a fresh registry by [connect]
    (with a handle that has no session, a [User] object no session holds and
    a room id that is not empty), [disconnect] and [broadcast_to_room]: a
    websocket is in at most one room's connection set, it is in one if and
    only if it has an entry in [user_sessions], the two room maps have the
    same keys, and no room maps to an empty connection set. *)
Theorem registry_consistent_when_reachable w :
  reachable_by fresh_session w → consistent (connection_manager w).
Proof.
  intros [Hk Hne Hcs Hsc]%reachable_inv. repeat split.
  - intros ws r1 r2 H1 H2.
    destruct (Hcs _ _ H1) as (u1 & Hu1 & Hr1), (Hcs _ _ H2) as (u2 & Hu2 & Hr2).
    congruence.
  - intros [r Hin]. destruct (Hcs _ _ Hin) as (u & Hu & _). eauto.
  - intros [u Hu]. destruct (Hsc _ _ Hu) as (r & _ & _ & Hin). eauto.
  - exact Hk.
  - intros r Hr. by apply (Hne r ∅).
Qed.

Lemma registry_consistent_witness :
  reachable_by fresh_session chat_world ∧ consistent (connection_manager chat_world).
Proof.
  split; [exact chat_world_reachable|].
  exact (registry_consistent_when_reachable chat_world chat_world_reachable).
Defined.

(** C3 as stated fails: fresh handles are not enough.  After
    [connect(10, alice, "")] and [disconnect(10)] the handle 10 is still in
    the connection set of the room "", and has no session. *)
Lemma empty_room_id_breaks_consistency :
  reachable_by fresh_handle left_empty_room_world
  ∧ 10 ∈ room_connections (connection_manager left_empty_room_world) ""
  ∧ user_sessions (connection_manager left_empty_room_world) !! 10 = None
  ∧ ¬ consistent (connection_manager left_empty_room_world).
Proof.
  assert (Hin : 10 ∈ room_connections (connection_manager left_empty_room_world) "")
    by (by vm_compute).
  assert (Hno : user_sessions (connection_manager left_empty_room_world) !! 10 = None)
    by (by vm_compute).
  split; [|split; [done|split; [done|]]].
  - apply reachable_step; [|done].
    apply reachable_step; [by apply reachable_init|].
    split; [by vm_compute|]. intros r. unfold room_connections. simpl.
    rewrite lookup_empty. set_solver.
  - intros (_ & Hiff & _).
    destruct (proj1 (Hiff 10) (ex_intro _ "" Hin)) as [u Hu]. congruence.
Qed.

(** ** Broadcast: one failing connection (C2) *)

Lemma sweep_failed_one (raises : WebSocket → option exn) (conns : gset WebSocket) bad :
  bad ∈ conns → is_Some (raises bad) →
  (∀ c, c ∈ conns → c ≠ bad → raises c = None) →
  sweep_failed raises (elements conns) = {[bad]}.
Proof.
  intros Hbad Hfail Hothers. unfold sweep_failed. apply set_eq. intros c.
  rewrite elem_of_list_to_set, list_elem_of_filter, elem_of_elements, elem_of_singleton.
  split.
  - intros [Hs Hin]. destruct (decide (c = bad)) as [|Hne]; [done|].
    rewrite (Hothers c Hin Hne) in Hs. by destruct Hs.
  - by intros ->.
Qed.

Lemma sweep_delivered_one (raises : WebSocket → option exn) (conns : gset WebSocket) bad :
  is_Some (raises bad) →
  (∀ c, c ∈ conns → c ≠ bad → raises c = None) →
  filter (λ c, raises c = None) (elements conns) ≡ₚ elements (conns ∖ {[bad]}).
Proof.
  intros Hfail Hothers. apply NoDup_Permutation.
  - apply NoDup_filter, NoDup_elements.
  - apply NoDup_elements.
  - intros c.
    rewrite list_elem_of_filter, !elem_of_elements, elem_of_difference, elem_of_singleton.
    split.
    + intros [Hn Hin]. split; [done|]. intros ->. rewrite Hn in Hfail. by destruct Hfail.
    + intros [Hin Hne]. split; [|done]. by apply Hothers.
Qed.

(** C2.  Let a room have the connection set [conns], of which the send raises
    on [bad] and on no other.  Then [broadcast_to_room] returns; it attempts
    one send on every connection of the set; every connection but [bad]
    receives the serialized message exactly once, which makes [size conns - 1]
    deliveries; once the sweep is over (all attempts made, the registry
    untouched) [bad] is passed to [disconnect]; and afterwards
    [get_user_info bad] is [None]. *)
Theorem broadcast_isolates_failure w raises room message conns bad :
  keys_agree (connection_manager w) →
  active_connections (connection_manager w) !! room = Some conns →
  bad ∈ conns →
  is_Some (raises bad) →
  (∀ c, c ∈ conns → c ≠ bad → raises c = None) →
  let result := ConnectionManager.broadcast_to_room raises room message w in
  let sent := new_events w (world_of result) in
  returns result = true
  ∧ attempts sent ≡ₚ elements conns
  ∧ deliveries sent ≡ₚ (λ c, (c, model_dump_json message)) <$> elements (conns ∖ {[bad]})
  ∧ length (deliveries sent) = size conns - 1
  ∧ (∃ swept, attempts (new_events w swept) = elements conns
              ∧ connection_manager swept = connection_manager w
              ∧ world_of result = world_of (ConnectionManager.disconnect bad swept))
  ∧ ConnectionManager.get_user_info (connection_manager (world_of result)) bad = None.
Proof.
  intros Hk Hc Hbad Hfail Hothers result sent.
  set (swept := set_trace
        (trace w ++ sweep_events raises (model_dump_json message) (elements conns)) w).
  assert (Hres : result = (ConnectionManager.disconnect bad;; mret tt) swept).
  { unfold result. rewrite (broadcast_room _ _ _ _ conns) by done.
    by rewrite (sweep_failed_one raises conns bad), elements_singleton. }
  destruct (disconnect_forgets swept bad Hk) as [Hret Hgone].
  assert (Hworld : world_of result = world_of (ConnectionManager.disconnect bad swept)).
  { rewrite Hres. unfold mbind, M_bind, mret, M_ret.
    by destruct (ConnectionManager.disconnect bad swept). }
  destruct (broadcast_trace w raises room message conns Hc) as (logs & Ht & Hl).
  fold result in Ht. fold sent in Ht.
  assert (Hdel : deliveries sent ≡ₚ
            (λ c, (c, model_dump_json message)) <$> elements (conns ∖ {[bad]})).
  { rewrite Ht, deliveries_app, deliveries_sweep, (deliveries_logs logs Hl), app_nil_r.
    by rewrite (sweep_delivered_one raises conns bad). }
  split; [|split; [|split; [|split; [|split]]]].
  - rewrite Hres. unfold mbind, M_bind, mret, M_ret.
    by destruct (ConnectionManager.disconnect bad swept).
  - by rewrite Ht, attempts_app, attempts_sweep, (attempts_logs logs Hl), app_nil_r.
  - exact Hdel.
  - rewrite Hdel, length_fmap. change (size (conns ∖ {[bad]}) = size conns - 1).
    rewrite size_difference by set_solver. by rewrite size_singleton.
  - exists swept. split; [|done].
    unfold swept. erewrite new_events_app; [apply attempts_sweep|done].
  - by rewrite Hworld.
Qed.

Lemma broadcast_isolates_failure_witness :
  keys_agree (connection_manager chat_world)
  ∧ active_connections (connection_manager chat_world) !! "general" = Some {[10; 11]}
  ∧ deliveries (new_events chat_world
       (world_of (ConnectionManager.broadcast_to_room bob_is_gone "general" hello chat_world)))
    ≡ₚ (λ c, (c, model_dump_json hello)) <$> elements (({[10; 11]} : gset WebSocket) ∖ {[11]})
  ∧ ConnectionManager.get_user_info
      (connection_manager
         (world_of (ConnectionManager.broadcast_to_room bob_is_gone "general" hello chat_world)))
      11 = None.
Proof.
  assert (Hk : keys_agree (connection_manager chat_world)) by (by vm_compute).
  assert (Hc : active_connections (connection_manager chat_world) !! "general"
               = Some {[10; 11]}) by (by vm_compute).
  split; [exact Hk|]. split; [exact Hc|].
  destruct (broadcast_isolates_failure chat_world bob_is_gone "general" hello {[10; 11]} 11)
    as (_ & _ & Hd & _ & _ & Hg).
  - exact Hk.
  - exact Hc.
  - set_solver.
  - by eexists.
  - intros c Hin Hne. unfold bob_is_gone. by rewrite decide_False.
  - by split.
Defined.

(** ** Broadcast: only the room's connections, and unknown rooms (C5) *)

(** C5.  [broadcast_to_room] attempts no send on a connection that is not in
    the connection set of the room, whatever else the registry holds; and
    when the room has no entry in [active_connections] the call returns
    normally, writes one warning and nothing else, and leaves the registry
    as it was. *)
Theorem broadcast_stays_in_room w raises room message :
  let result := ConnectionManager.broadcast_to_room raises room message w in
  (∀ c, c ∉ room_connections (connection_manager w) room →
        c ∉ attempts (new_events w (world_of result)))
  ∧ (active_connections (connection_manager w) !! room = None →
       result = Ok tt (set_trace (trace w ++ [log_no_room room]) w)
       ∧ connection_manager (world_of result) = connection_manager w
       ∧ new_events w (world_of result) = [log_no_room room]).
Proof.
  intros result. split.
  - intros c Hc Hin.
    destruct (active_connections (connection_manager w) !! room) as [conns|] eqn:Hr.
    + destruct (broadcast_trace w raises room message conns Hr) as (logs & Ht & Hl).
      fold result in Ht.
      rewrite Ht, attempts_app, attempts_sweep, (attempts_logs logs Hl), app_nil_r in Hin.
      apply elem_of_elements in Hin. apply Hc. by rewrite (room_connections_Some _ _ conns).
    + unfold result in Hin. rewrite broadcast_no_room in Hin by done. simpl in Hin.
      erewrite new_events_app in Hin; [|done]. simpl in Hin. by apply elem_of_nil in Hin.
  - intros Hr. unfold result. rewrite broadcast_no_room by done. simpl.
    split; [done|]. split; [done|]. by apply new_events_app.
Qed.

Lemma broadcast_stays_in_room_witness :
  (12 ∉ room_connections (connection_manager chat_world) "general")
  ∧ (12 ∉ attempts (new_events chat_world
            (world_of (ConnectionManager.broadcast_to_room bob_is_gone "general" hello
                         chat_world))))
  ∧ active_connections (connection_manager chat_world) !! "tech" = None
  ∧ new_events chat_world
      (world_of (ConnectionManager.broadcast_to_room bob_is_gone "tech" hello chat_world))
    = [log_no_room "tech"].
Proof.
  assert (H12 : 12 ∉ room_connections (connection_manager chat_world) "general").
  { intros H. by vm_compute in H. }
  assert (Ht : active_connections (connection_manager chat_world) !! "tech" = None)
    by (by vm_compute).
  split; [exact H12|]. split.
  - exact (proj1 (broadcast_stays_in_room chat_world bob_is_gone "general" hello) 12 H12).
  - split; [exact Ht|].
    exact (proj2 (proj2 (proj2 (broadcast_stays_in_room chat_world bob_is_gone "tech" hello)
                           Ht))).
Defined.

(** ** [disconnect] (C6) *)

Lemma guard_fails w user :
  current_room w !! obj user = None
  ∨ current_room w !! obj user = Some ""
  ∨ (∃ room, current_room w !! obj user = Some room
             ∧ active_connections (connection_manager w) !! room = None) →
  truthy (current_room w !! obj user)
    && bool_decide (default "" (current_room w !! obj user)
                    ∈ dom (active_connections (connection_manager w))) = false.
Proof.
  intros [->| [->|(room & -> & Hn)]]; [done|done|].
  apply andb_false_intro2. simpl. apply bool_decide_eq_false_2.
  by apply not_elem_of_dom.
Qed.

(** C6 (amended).  For every state of the registry and every websocket:
    - if the websocket has no session, [disconnect] returns and changes
      nothing;
    - if its session's room id is not empty and has an entry in both room
      maps, [disconnect] returns, the session is deleted, the websocket
      leaves the room's connection set and the user's id the room's member
      set, the room's entries are deleted from both maps when the connection
      set becomes empty, and no other room is touched;
    - the session is deleted last: if the room has an entry in
      [active_connections] and none in [room_members], the [KeyError] of the
      room cleanup leaves the session in place, the connection set already
      updated;
    - if the session's room id is [None] or empty, or has no entry in
      [active_connections], [disconnect] returns, deletes the session and
      leaves both room maps as they were. *)
Theorem disconnect_cleans_up w ws :
  let c := connection_manager w in
  let result := ConnectionManager.disconnect ws w in
  let c' := connection_manager (world_of result) in
  (user_sessions c !! ws = None → result = Ok tt w)
  ∧ (∀ user room conns ids,
       user_sessions c !! ws = Some user →
       current_room w !! obj user = Some room →
       room ≠ "" →
       active_connections c !! room = Some conns →
       room_members c !! room = Some ids →
       returns result = true
       ∧ user_sessions c' = delete ws (user_sessions c)
       ∧ (∀ r, r ≠ room →
            active_connections c' !! r = active_connections c !! r
            ∧ room_members c' !! r = room_members c !! r)
       ∧ (if decide (conns ∖ {[ws]} = ∅)
          then active_connections c' !! room = None ∧ room_members c' !! room = None
          else active_connections c' !! room = Some (conns ∖ {[ws]})
               ∧ room_members c' !! room = Some (ids ∖ {[id user]})))
  ∧ (∀ user room conns,
       user_sessions c !! ws = Some user →
       current_room w !! obj user = Some room →
       room ≠ "" →
       active_connections c !! room = Some conns →
       room_members c !! room = None →
       result = Raise KeyError (world_of result)
       ∧ active_connections c' !! room = Some (conns ∖ {[ws]})
       ∧ user_sessions c' = user_sessions c)
  ∧ (∀ user,
       user_sessions c !! ws = Some user →
       current_room w !! obj user = None
       ∨ current_room w !! obj user = Some ""
       ∨ (∃ room, current_room w !! obj user = Some room
                  ∧ active_connections c !! room = None) →
       returns result = true
       ∧ user_sessions c' = delete ws (user_sessions c)
       ∧ active_connections c' = active_connections c
       ∧ room_members c' = room_members c).
Proof.
  intros c result c'. subst c c' result. split; [|split; [|split]].
  - by apply disconnect_unknown.
  - intros user room conns ids Hs Hr Hne Hc Hm.
    rewrite (disconnect_room w ws user room conns ids) by done. simpl.
    split; [done|]. split; [done|]. split.
    + intros r Hrr. destruct (decide _); by rewrite ?lookup_delete_ne, ?lookup_insert_ne.
    + destruct (decide _); by rewrite ?lookup_delete_eq, ?lookup_insert_eq.
  - intros user room conns Hs Hr Hne Hc Hm.
    rewrite (disconnect_room_raises w ws user room conns) by done. simpl.
    by rewrite lookup_insert_eq.
  - intros user Hs Hg.
    by rewrite (disconnect_no_room w ws user Hs (guard_fails w user Hg)).
Qed.

Lemma disconnect_cleans_up_witness :
  user_sessions (connection_manager chat_world) !! 12 = Some carol
  ∧ active_connections
      (connection_manager (world_of (ConnectionManager.disconnect 12 chat_world)))
    !! "random" = None
  ∧ user_sessions
      (connection_manager (world_of (ConnectionManager.disconnect 12 chat_world)))
    = delete 12 (user_sessions (connection_manager chat_world)).
Proof.
  assert (Hs : user_sessions (connection_manager chat_world) !! 12 = Some carol)
    by (by vm_compute).
  split; [exact Hs|].
  destruct (disconnect_cleans_up chat_world 12) as (_ & Hroom & _ & _).
  destruct (Hroom carol "random" {[12]} {[ "u-carol" ]}) as (_ & Hdel & _ & Hlast);
    [exact Hs|by vm_compute|done|by vm_compute|by vm_compute|].
  split; [|exact Hdel].
  rewrite decide_True in Hlast by set_solver. exact (proj1 Hlast).
Defined.

(** C6 as stated fails where the room id is the empty string: the handle 10
    has a session whose room is "", it is in that room's connection set, and
    [disconnect] removes neither it from the set nor the user's id from the
    member set. *)
Lemma disconnect_keeps_empty_room_id :
  user_sessions (connection_manager empty_room_world) !! 10 = Some alice
  ∧ current_room empty_room_world !! obj alice = Some ""
  ∧ room_connections (connection_manager empty_room_world) "" = {[10]}
  ∧ 10 ∈ room_connections
           (connection_manager (world_of (ConnectionManager.disconnect 10 empty_room_world)))
           ""
  ∧ room_members
      (connection_manager (world_of (ConnectionManager.disconnect 10 empty_room_world)))
    !! "" = Some {[ "u-alice" ]}
  ∧ user_sessions
      (connection_manager (world_of (ConnectionManager.disconnect 10 empty_room_world)))
    !! 10 = None.
Proof. repeat split; by vm_compute. Qed.

(** ** The relay before [connect] (C10) *)

(** A [connect] that fails leaves both fields as they were. *)
Lemma connect_failure_leaves_unconnected w e :
  RedisManager.connect (Some e) w
  = Raise e (set_trace (trace w ++ [Log ERROR ("Failed to connect to Redis: " +:+ exn_str e)]) w).
Proof. reflexivity. Qed.

(** C10.  While [redis_client] is absent [publish_message] returns normally,
    and while [pubsub] is absent so does [subscribe_to_room]; each writes one
    error record to the log and changes nothing else, whatever the broker
    would have answered. *)
Theorem relay_unconnected_noop w publish_raises subscribe_raises room message :
  (redis_client (redis_manager w) = None →
     RedisManager.publish_message publish_raises room message w
     = Ok tt (set_trace (trace w ++ [Log ERROR "Redis client not connected"]) w))
  ∧ (pubsub (redis_manager w) = None →
     RedisManager.subscribe_to_room subscribe_raises room w
     = Ok tt (set_trace (trace w ++ [Log ERROR "PubSub not initialized"]) w)).
Proof.
  split; intros H; rm_unfold; simpl; by rewrite H.
Qed.

Lemma relay_unconnected_noop_witness :
  redis_client (redis_manager world0) = None
  ∧ pubsub (redis_manager world0) = None
  ∧ RedisManager.publish_message None "general" hello world0
    = Ok tt (set_trace [Log ERROR "Redis client not connected"] world0)
  ∧ RedisManager.subscribe_to_room None "general" world0
    = Ok tt (set_trace [Log ERROR "PubSub not initialized"] world0).
Proof.
  split; [reflexivity|]. split; [reflexivity|]. split.
  - exact (proj1 (relay_unconnected_noop world0 None None "general" hello) eq_refl).
  - exact (proj2 (relay_unconnected_noop world0 None None "general" hello) eq_refl).
Defined.

(** ** The gateway: unknown rooms (C9) *)

(** C9.  When the room id of a request has no entry in [rooms_db],
    [websocket_endpoint] returns normally having done one thing to the
    outside, the close of the websocket with code 1008 and reason
    "Room not found": nothing was accepted, subscribed or published, and the
    registry, the relay and the room store are as they were. *)
Theorem unknown_room_rejected q w :
  path_room_id q ∉ dom (rooms_db w) →
  let result := websocket_endpoint q w in
  returns result = true
  ∧ new_events w (world_of result) = [Close (websocket q) 1008 "Room not found"]
  ∧ connection_manager (world_of result) = connection_manager w
  ∧ redis_manager (world_of result) = redis_manager w
  ∧ rooms_db (world_of result) = rooms_db w.
Proof.
  intros Hr result. subst result. unfold websocket_endpoint.
  unfold ConnectionManager.assign_current_room, websocket_close, mbind, M_bind, emit. simpl.
  rewrite decide_False by done. simpl.
  repeat split. by apply new_events_app.
Qed.

Lemma unknown_room_rejected_witness :
  ("lobby" ∉ dom (rooms_db started))
  ∧ new_events started (world_of (websocket_endpoint lobby_request started))
    = [Close 10 1008 "Room not found"].
Proof.
  assert (H : "lobby" ∉ dom (rooms_db started)).
  { intros H. by vm_compute in H. }
  split; [exact H|].
  exact (proj1 (proj2 (unknown_room_rejected lobby_request started H))).
Defined.

(** ** The gateway: leaving the room (C4) *)

(** C4 (the code departs from it).  [bob] joins "general" and says "hi".
    When the read then raises [WebSocketDisconnect], the gateway disconnects
    the websocket and publishes the join, the chat message and one leave
    message.  When the read raises another exception, the gateway
    disconnects the websocket and publishes no leave message. *)
Theorem read_error_publishes_no_leave :
  let closed := world_of (websocket_endpoint (bob_request WebSocketDisconnect) started) in
  let broken := world_of (websocket_endpoint (bob_request (RuntimeError "read failed")) started) in
  published (new_events started closed)
    = [("room:general", model_dump_json bob_join);
       ("room:general", model_dump_json bob_hi);
       ("room:general", model_dump_json bob_leave)]
  ∧ ConnectionManager.get_user_info (connection_manager closed) 10 = None
  ∧ published (new_events started broken)
    = [("room:general", model_dump_json bob_join);
       ("room:general", model_dump_json bob_hi)]
  ∧ ConnectionManager.get_user_info (connection_manager broken) 10 = None.
Proof. repeat split; by vm_compute. Qed.

(** ** The listener (C7) *)

Section Listener.

Context (call : Callable → string → Message → M unit) (utcnow : datetime).

Lemma on_message_deliver m w :
  RedisManager.on_message call utcnow m w = Ok tt (deliver call utcnow w m).
Proof.
  unfold RedisManager.on_message, deliver, decode_event, Message_from_json.
  destruct (decide (type m = "message")) as [_|_]; [|done].
  unfold try_except, mbind, M_bind, eval, mret, M_ret, raise, RedisManager.self, logger,
    emit, log_processing_error.
  destruct (after_first_colon (channel m)) as [room_id|]; simpl; [|done].
  destruct (json_loads (data m)) as [e|message_data]; simpl; [done|].
  destruct (Message_of_dict utcnow message_data) as [e|msg]; simpl; [done|].
  destruct (message_handler (redis_manager w)) as [handler|]; [|done].
  by destruct (call handler room_id msg w) as [[] w'|e w'].
Qed.

Lemma listen_loop_deliver msgs : ∀ w,
  RedisManager.listen_loop call utcnow (Yield <$> msgs) w
  = Ok false (foldl (deliver call utcnow) w msgs).
Proof.
  induction msgs as [|m msgs IH]; intros w; simpl; [done|].
  unfold mbind, M_bind. rewrite on_message_deliver. apply IH.
Qed.

(** Whatever happened to the events before, the loop goes on with the ones
    after. *)
Lemma listen_loop_continues before after w :
  RedisManager.listen_loop call utcnow (Yield <$> (before ++ after)) w
  = RedisManager.listen_loop call utcnow (Yield <$> after)
      (foldl (deliver call utcnow) w before).
Proof. by rewrite !listen_loop_deliver, foldl_app. Qed.

(** C7.  On a subscribed relay, for every sequence of events the broker
    yields, every handler and every clock, [start_listening] returns
    normally, and the world it leaves is the one reached by doing the
    listener's duty [deliver] on every event in turn: an event whose type is
    not "message" is skipped; for a data message the room id is what follows
    the first colon of the channel and the payload is decoded to a [Message]
    before the handler is called with both; a decode failure or an exception
    of the handler is logged, and the events after it are processed all the
    same. *)
Theorem listener_survives_failures msgs w :
  is_Some (pubsub (redis_manager w)) →
  RedisManager.start_listening call utcnow (Yield <$> msgs) w
  = Ok tt (foldl (deliver call utcnow)
             (set_trace (trace w ++ [Log INFO "Started Redis listener"]) w) msgs).
Proof.
  intros [chans Hp]. unfold RedisManager.start_listening.
  unfold mbind, M_bind, RedisManager.self, try_except, logger, emit. rewrite Hp.
  by rewrite listen_loop_deliver.
Qed.

End Listener.

Lemma listener_survives_failures_witness :
  is_Some (pubsub (redis_manager started))
  ∧ new_events started
      (world_of (RedisManager.start_listening fragile_handler noon (Yield <$> inbound) started))
    = [Log INFO "Started Redis listener";
       Log ERROR "Error processing message: JSONDecodeError";
       Log ERROR "Error processing message: list index out of range";
       Log ERROR "Error processing message: handler failed";
       Log DEBUG "handled general: hi"].
Proof.
  assert (H : is_Some (pubsub (redis_manager started))) by (by eexists).
  split; [exact H|].
  rewrite (listener_survives_failures fragile_handler noon inbound started H).
  by vm_compute.
Defined.

(** ** The gateway: join, chat and leave messages *)

Lemma hands_over_refl w : hands_over [] w w.
Proof. split; [done|]. exists []. by rewrite app_nil_r. Qed.

Lemma hands_over_trans l1 l2 w1 w2 w3 :
  hands_over l1 w1 w2 → hands_over l2 w2 w3 → hands_over (l1 ++ l2) w1 w3.
Proof.
  intros (Hc & t & Ht & Hl) (Hc' & t' & Ht' & Hl'). split; [congruence|].
  exists (t ++ t'). rewrite Ht', Ht, app_assoc. split; [done|].
  unfold publish_attempts in *. by rewrite omap_app, Hl, Hl'.
Qed.

Lemma publish_attempts_logs t : forallb is_log t = true → publish_attempts t = [].
Proof.
  induction t as [|ev t IH]; simpl; [done|].
  intros [He Ht]%andb_true_iff. destruct ev; try done. simpl. by apply IH.
Qed.

Lemma publish_message_hands_over pr room m w :
  is_Some (redis_client (redis_manager w)) →
  ∃ w', RedisManager.publish_message pr room m w = Ok tt w'
        ∧ hands_over [("room:" +:+ room, model_dump_json m)] w w'
        ∧ connection_manager w' = connection_manager w.
Proof.
  intros [client Hc]. unfold RedisManager.publish_message, RedisManager.redis_publish,
    RedisManager.self, mbind, M_bind, try_except, logger, emit, raise. rewrite Hc.
  destruct pr as [e|]; simpl; eexists; (split; [reflexivity|]);
    (split; [|done]); (split; [done|]); simpl; eexists [_; _];
    rewrite <- app_assoc; by split.
Qed.

Lemma subscribe_hands_over sr room w :
  ∃ w', RedisManager.subscribe_to_room sr room w = Ok tt w'
        ∧ hands_over [] w w'
        ∧ connection_manager w' = connection_manager w.
Proof.
  unfold RedisManager.subscribe_to_room, RedisManager.pubsub_subscribe,
    RedisManager.self, RedisManager.update, mbind, M_bind, try_except, logger, emit, raise.
  destruct (pubsub (redis_manager w)) as [chans|] eqn:Hp.
  - destruct sr as [e|]; simpl; eexists; (split; [reflexivity|]);
      (split; [|done]); (split; [done|]); simpl; eexists [_; _];
      rewrite <- app_assoc; by split.
  - simpl. eexists; (split; [reflexivity|]); (split; [|done]); (split; [done|]).
    by eexists [_].
Qed.

Lemma only_logs_hands_over w w' :
  redis_manager w' = redis_manager w → only_logs w w' → hands_over [] w w'.
Proof.
  intros Hr (t & Ht & Hl). split; [by rewrite Hr|].
  exists t. split; [done|]. by apply publish_attempts_logs.
Qed.

Lemma disconnect_redis_manager w ws :
  redis_manager (world_of (ConnectionManager.disconnect ws w)) = redis_manager w.
Proof. by destruct (disconnect_cases w ws). Qed.

Lemma connect_hands_over w ws user r :
  keys_agree (connection_manager w) →
  ∃ w', ConnectionManager.connect None ws user r w = Ok tt w'
        ∧ hands_over [] w w'
        ∧ keys_agree (connection_manager w').
Proof.
  intros Hk. destruct (connect_keys_agree w None ws user r Hk) as [Hk' Hret].
  specialize (Hret eq_refl).
  destruct (connect_cases w None ws user r) as [e| |conns ids|conns Hc Hm];
    simpl in *; try done;
    (eexists; split; [reflexivity|]; split; [|done]; split; [done|]; by eexists [_; _]).
Qed.

Lemma receive_loop_hands_over q frames e : ∀ w,
  is_Some (redis_client (redis_manager w)) →
  ∃ w', receive_loop (uuid4 q) (default "Anonymous" (query_username q)) (path_room_id q)
          ((frame_step <$> frames) ++ [ReceiveRaises e]) w = Raise e w'
        ∧ hands_over (on_channel q ∘ chat_message q <$> frames) w w'
        ∧ connection_manager w' = connection_manager w.
Proof.
  induction frames as [|frame frames IH]; intros w Hc; simpl.
  - exists w. split; [done|]. split; [apply hands_over_refl|done].
  - destruct (publish_message_hands_over frame.2 (path_room_id q) (chat_message q frame) w Hc)
      as (w1 & Hp & Hh & Hcm).
    unfold mbind, M_bind. unfold chat_message in Hp. rewrite Hp.
    assert (Hc1 : is_Some (redis_client (redis_manager w1))) by (by rewrite (proj1 Hh)).
    destruct (IH w1 Hc1) as (w' & Hl & Hh' & Hcm').
    exists w'. split; [done|]. split; [|congruence].
    by apply (hands_over_trans [_] _ w w1 w').
Qed.

Lemma disconnect_hands_over w ws :
  keys_agree (connection_manager w) →
  ∃ w', ConnectionManager.disconnect ws w = Ok tt w'
        ∧ hands_over [] w w'
        ∧ ConnectionManager.get_user_info (connection_manager w') ws = None.
Proof.
  intros Hk. destruct (disconnect_forgets w ws Hk) as [Hret Hgone].
  pose proof (disconnect_only_logs w ws) as Hlogs.
  pose proof (disconnect_redis_manager w ws) as Hrm.
  destruct (ConnectionManager.disconnect ws w) as [[] w'|e w']; simpl in *; [|done].
  exists w'. split; [done|]. split; [|done]. by apply only_logs_hands_over.
Qed.

Lemma websocket_endpoint_hands_over q w frames e :
  path_room_id q ∈ dom (rooms_db w) →
  accept_raises q = None →
  is_Some (redis_client (redis_manager w)) →
  keys_agree (connection_manager w) →
  received q = (frame_step <$> frames) ++ [ReceiveRaises e] →
  ∃ w', websocket_endpoint q w = Ok tt w'
    ∧ hands_over
        (on_channel q (join_message q) :: (on_channel q ∘ chat_message q <$> frames)
         ++ (if decide (e = WebSocketDisconnect)
             then [on_channel q (leave_message q)] else []))
        w w'
    ∧ ConnectionManager.get_user_info (connection_manager w') (websocket q) = None.
Proof.
  intros Hroom Haccept Hclient Hk Hrecv.
  unfold websocket_endpoint. rewrite Haccept, Hrecv.
  unfold mbind at 1. unfold M_bind at 1. unfold ConnectionManager.assign_current_room.
  unfold mbind at 1. unfold M_bind at 1. cbn [rooms_db set_current_room].
  rewrite decide_True by done.
  set (w0 := set_current_room _ w).
  assert (Hw0 : hands_over [] w w0).
  { split; [done|]. exists []. by rewrite app_nil_r. }
  destruct (connect_hands_over w0 (websocket q)
              (mkUser (user_obj q) (uuid4 q) (default "Anonymous" (query_username q)))
              (path_room_id q) Hk) as (w1 & Hconn & H1 & Hk1).
  unfold mbind at 1. unfold M_bind at 1. rewrite Hconn.
  destruct (subscribe_hands_over (subscribe_raises q) (path_room_id q) w1)
    as (w2 & Hsub & H2 & Hcm2).
  unfold mbind at 1. unfold M_bind at 1. rewrite Hsub.
  assert (Hc2 : is_Some (redis_client (redis_manager w2))).
  { by rewrite (proj1 H2), (proj1 H1). }
  destruct (publish_message_hands_over (join_publish_raises q) (path_room_id q)
              (join_message q) w2 Hc2) as (w3 & Hjoin & H3 & Hcm3).
  unfold mbind at 1. unfold M_bind at 1. unfold join_message in Hjoin. rewrite Hjoin.
  assert (Hc3 : is_Some (redis_client (redis_manager w3))) by (by rewrite (proj1 H3)).
  destruct (receive_loop_hands_over q frames e w3 Hc3) as (w4 & Hloop & H4 & Hcm4).
  unfold try_except. rewrite Hloop.
  assert (Hk4 : keys_agree (connection_manager w4)) by (by rewrite Hcm4, Hcm3, Hcm2).
  assert (Hc4 : is_Some (redis_client (redis_manager w4))) by (by rewrite (proj1 H4)).
  assert (H04 : hands_over
            (on_channel q (join_message q) :: (on_channel q ∘ chat_message q <$> frames))
            w w4).
  { apply (hands_over_trans [] _ w w0 w4); [done|].
    apply (hands_over_trans [] _ w0 w1 w4); [done|].
    apply (hands_over_trans [] _ w1 w2 w4); [done|].
    by apply (hands_over_trans [_] _ w2 w3 w4). }
  destruct (decide (e = WebSocketDisconnect)) as [->|Hne].
  - destruct (disconnect_hands_over w4 (websocket q) Hk4) as (w5 & Hdis & H5 & Hgone).
    unfold mbind at 1. unfold M_bind at 1. rewrite Hdis.
    assert (Hc5 : is_Some (redis_client (redis_manager w5))) by (by rewrite (proj1 H5)).
    destruct (publish_message_hands_over (leave_publish_raises q) (path_room_id q)
                (leave_message q) w5 Hc5) as (w6 & Hleave & H6 & Hcm6).
    unfold mbind at 1. unfold M_bind at 1. unfold leave_message in Hleave. rewrite Hleave.
    unfold logger, emit. eexists. split; [reflexivity|]. split.
    + rewrite app_comm_cons.
      eapply hands_over_trans; [exact H04|].
      apply (hands_over_trans [] [_] w4 w5); [done|].
      rewrite <- (app_nil_r [_]). eapply hands_over_trans; [exact H6|].
      split; [done|]. by eexists [_].
    + cbn [set_trace connection_manager]. by rewrite Hcm6.
  - unfold logger, emit. unfold mbind at 1. unfold M_bind at 1.
    set (w4' := set_trace _ w4).
    assert (Hk4' : keys_agree (connection_manager w4')) by done.
    destruct (disconnect_hands_over w4' (websocket q) Hk4') as (w5' & Hdis' & H5' & Hgone').
    rewrite Hdis'. exists w5'. split; [done|]. split; [|done].
    assert (H44 : hands_over [] w4 w4').
    { split; [done|]. by eexists [_]. }
    rewrite app_nil_r. rewrite <- (app_nil_r (_ :: _)).
    eapply hands_over_trans; [exact H04|].
    by apply (hands_over_trans [] [] w4 w4' w5').
Qed.

(** X3.  The gateway hands the join message, one chat message per frame, and on
    [WebSocketDisconnect] the leave message to the broker, each once and in
    this order; on any other exception of the read no leave message follows.
    Either way the websocket has no session afterwards. *)
Theorem gateway_join_chat_leave q w frames e :
  path_room_id q ∈ dom (rooms_db w) →
  accept_raises q = None →
  is_Some (redis_client (redis_manager w)) →
  keys_agree (connection_manager w) →
  received q = (frame_step <$> frames) ++ [ReceiveRaises e] →
  let result := websocket_endpoint q w in
  returns result = true
  ∧ publish_attempts (new_events w (world_of result))
    = on_channel q (join_message q) :: (on_channel q ∘ chat_message q <$> frames)
      ++ (if decide (e = WebSocketDisconnect) then [on_channel q (leave_message q)] else [])
  ∧ ConnectionManager.get_user_info (connection_manager (world_of result)) (websocket q) = None.
Proof.
  intros Hroom Haccept Hclient Hk Hrecv result.
  destruct (websocket_endpoint_hands_over q w frames e Hroom Haccept Hclient Hk Hrecv)
    as (w' & Hrun & (_ & t & Ht & Hl) & Hgone).
  subst result. rewrite Hrun. simpl. split; [done|]. split; [|done].
  by rewrite (new_events_app w w' t Ht).
Qed.

Lemma gateway_join_chat_leave_witness :
  ("general" ∈ dom (rooms_db started))
  ∧ publish_attempts
      (new_events started (world_of (websocket_endpoint (bob_request WebSocketDisconnect) started)))
    = [("room:general", model_dump_json bob_join);
       ("room:general", model_dump_json bob_hi);
       ("room:general", model_dump_json bob_leave)].
Proof.
  assert (Hroom : "general" ∈ dom (rooms_db started)) by (by vm_compute).
  split; [exact Hroom|].
  exact (proj1 (proj2 (gateway_join_chat_leave (bob_request WebSocketDisconnect) started
                         [("hi", noon, None)] WebSocketDisconnect
                         Hroom eq_refl (ex_intro _ _ eq_refl) eq_refl eq_refl))).
Defined.

(** ** The wire format read back (C8) *)

Lemma append_nil_l (b : string) : "" +:+ b = b.
Proof. reflexivity. Qed.

Lemma append_cons (x : ascii) (a b : string) : String x a +:+ b = String x (a +:+ b).
Proof. reflexivity. Qed.

Lemma append_nil_r (a : string) : a +:+ "" = a.
Proof. induction a as [|x a IH]; [done|]. rewrite append_cons. by f_equal. Qed.

Lemma append_assoc (a b c : string) : (a +:+ b) +:+ c = a +:+ (b +:+ c).
Proof. induction a as [|x a IH]; [done|]. rewrite !append_cons. by f_equal. Qed.

#[local] Hint Rewrite append_assoc append_cons append_nil_l : str.

Lemma length_append (a b : string) :
  String.length (a +:+ b) = String.length a + String.length b.
Proof. induction a as [|x a IH]; [done|]. rewrite append_cons. simpl. by rewrite IH. Qed.

(** *** String literals *)

Lemma json_unescape_char c tail :
  json_unescape (json_escape_char c +:+ tail)
  = match json_unescape tail with
    | Some (t, rest) => Some (String c t, rest)
    | None => None
    end.
Proof. destruct c as [[] [] [] [] [] [] [] []]; reflexivity. Qed.

Lemma json_unescape_escape s rest :
  json_unescape (json_escape s +:+ String dquote rest) = Some (s, rest).
Proof.
  induction s as [|c s IH]; simpl; [done|].
  by rewrite append_assoc, json_unescape_char, IH.
Qed.

Lemma parse_string_json_string s rest :
  parse_string (json_string s +:+ rest) = Some (s, rest).
Proof.
  unfold json_string, str1. autorewrite with str. simpl. apply json_unescape_escape.
Qed.

Lemma skip_ws_json_string s rest :
  skip_ws (json_string s +:+ rest) = json_string s +:+ rest.
Proof. reflexivity. Qed.

(** *** Objects *)

Lemma json_members_length l rest :
  length l ≤ String.length (json_members l +:+ rest).
Proof.
  induction l as [|[k v] l IH]; simpl; [lia|].
  unfold json_member, json_string. autorewrite with str. simpl.
  destruct l as [|p l]; [simpl; lia|].
  rewrite !length_append. simpl String.length. rewrite !length_append.
  rewrite length_append in IH. simpl in *. lia.
Qed.

Lemma parse_members_render l : ∀ fuel rest,
  l ≠ [] → length l ≤ fuel →
  parse_members fuel (json_members l +:+ rest) = Some (l, rest).
Proof.
  induction l as [|[k v] l IH]; intros fuel rest Hne Hf; [done|].
  destruct fuel as [|fuel]; [simpl in Hf; lia|].
  cbn [json_members parse_members]. unfold json_member.
  rewrite !append_assoc, skip_ws_json_string, parse_string_json_string.
  cbn [mbind option_bind]. autorewrite with str. simpl skip_ws. simpl expect. cbn [mbind option_bind].
  rewrite skip_ws_json_string, parse_string_json_string. cbn [mbind option_bind].
  destruct l as [|p l].
  - autorewrite with str. reflexivity.
  - remember (json_members (p :: l)) as tail eqn:Ht.
    autorewrite with str.
    change (skip_ws (String "," (tail +:+ rest))) with (String "," (tail +:+ rest)).
    cbn iota beta. change (ord ",") with 44%N.
    rewrite decide_False by done. rewrite decide_True by done.
    subst tail. rewrite IH; [done|done|simpl in *; lia].
Qed.

Lemma parse_object_members l :
  l ≠ [] → parse_object ("{" +:+ json_members l) = Some l.
Proof.
  intros Hl. unfold parse_object. rewrite append_cons, append_nil_l.
  change (skip_ws (String "{" ?s)) with (String "{" s).
  change (expect 123 (String "{" ?s)) with (Some s). cbn [mbind option_bind].
  replace (expect 125 (skip_ws (json_members l))) with (@None string)
    by (by destruct l as [|[k v] l]).
  rewrite <- (append_nil_r (json_members l)) at 2.
  rewrite parse_members_render; [done|done|].
  rewrite <- (append_nil_r (json_members l)). apply json_members_length.
Qed.

Lemma model_dump_json_members m :
  model_dump_json m = "{" +:+ json_members (Message_members m).
Proof. reflexivity. Qed.

Lemma json_loads_model_dump_json m :
  json_loads (model_dump_json m) = inr (list_to_map (reverse (Message_members m))).
Proof.
  unfold json_loads. by rewrite model_dump_json_members, parse_object_members.
Qed.

(** *** Enum values and timestamps *)

Lemma MessageType_of_value_value t : MessageType_of_value (MessageType_value t) = Some t.
Proof. by destruct t. Qed.

Lemma ord_chr n : (n < 256)%N → ord (chr n) = n.
Proof. apply N_ascii_embedding. Qed.

Lemma digit_val_digit n : digit_val (digit n) = Some (n mod 10)%N.
Proof.
  unfold digit_val, digit. rewrite ord_chr by lia.
  replace (48 <=? 48 + n mod 10)%N with true by (symmetry; apply N.leb_le; lia).
  replace (48 + n mod 10 <=? 57)%N with true by (symmetry; apply N.leb_le; lia).
  simpl. f_equal. lia.
Qed.

Lemma read_pad2 n rest : (n < 100)%N → take_digits 2 0 (pad2 n +:+ rest) = Some (n, rest).
Proof.
  intros Hn. unfold pad2, str1. autorewrite with str. simpl. rewrite !digit_val_digit.
  do 2 f_equal. lia.
Qed.

Lemma read_pad4 n rest : (n < 10000)%N → take_digits 4 0 (pad4 n +:+ rest) = Some (n, rest).
Proof.
  intros Hn. unfold pad4, pad2, str1. autorewrite with str. simpl. rewrite !digit_val_digit.
  do 2 f_equal. lia.
Qed.

Lemma read_pad6 n rest : (n < 1000000)%N → take_digits 6 0 (pad6 n +:+ rest) = Some (n, rest).
Proof.
  intros Hn. unfold pad6, pad4, pad2, str1. autorewrite with str. simpl. rewrite !digit_val_digit.
  do 2 f_equal. lia.
Qed.

Lemma valid_datetime_bounds d :
  valid_datetime d = true →
  (year d < 10000 ∧ month d < 100 ∧ day d < 100 ∧ hour d < 100
   ∧ minute d < 100 ∧ second d < 100 ∧ microsecond d < 1000000)%N.
Proof.
  unfold valid_datetime. rewrite !andb_true_iff, !N.leb_le, !N.ltb_lt.
  intros [[[[[[[[[Hy0 Hy] Hm0] Hm] Hd0] Hd] Hh] Hmi] Hs] Hus].
  assert (days_in_month (year d) (month d) <= 31)%N.
  { unfold days_in_month. repeat case_match; lia. }
  lia.
Qed.

Lemma fromisoformat_isoformat d :
  valid_datetime d = true → fromisoformat (isoformat d) = Some d.
Proof.
  intros Hv. pose proof (valid_datetime_bounds d Hv) as (Hy & Hm & Hd & Hh & Hmi & Hs & Hus).
  unfold fromisoformat, isoformat.
  rewrite read_pad4 by done. cbn [mbind option_bind]. autorewrite with str. simpl expect.
  cbn [mbind option_bind].
  do 5 (rewrite read_pad2 by done; cbn [mbind option_bind]; autorewrite with str; simpl expect;
        cbn [mbind option_bind]).
  destruct (decide (microsecond d = 0%N)) as [Hz|Hz].
  - simpl. destruct d; simpl in *; subst. by rewrite Hv.
  - autorewrite with str. simpl expect. rewrite <- (append_nil_r (pad6 (microsecond d))).
    rewrite read_pad6 by done. simpl. destruct d; simpl in *. by rewrite Hv.
Qed.

(** C8.  For every [Message] whose timestamp is a value a [datetime] can
    hold, serializing it with [model_dump_json] and reading the text back
    with [json.loads] and the constructor yields the same [Message]: the
    four strings, the member of [MessageType], and the timestamp down to the
    microsecond.  The clock that would fill in a missing timestamp plays no
    part. *)
Theorem message_roundtrip utcnow m :
  valid_datetime (timestamp m) = true →
  Message_from_json utcnow (model_dump_json m) = inr m.
Proof.
  intros Hv. unfold Message_from_json. rewrite json_loads_model_dump_json.
  unfold Message_members, Message_of_dict, reverse.
  cbn [rev_append list_to_map foldr uncurry fst snd].
  repeat (first [rewrite lookup_insert_eq | rewrite lookup_insert_ne by done]).
  rewrite MessageType_of_value_value, fromisoformat_isoformat by done.
  by destruct m.
Qed.

Lemma message_roundtrip_witness :
  valid_datetime (timestamp bob_leave) = true
  ∧ Message_from_json noon (model_dump_json bob_leave) = inr bob_leave.
Proof.
  split; [reflexivity|]. exact (message_roundtrip noon bob_leave eq_refl).
Defined.

(** ** The counts of [get_all_rooms] *)

(** X4.  In every state the registry reaches with fresh users,
    [get_all_rooms] has an entry exactly for the rooms that have
    connections; the count it gives for a room is the one
    [get_room_member_count] gives, with 0 standing for a room without an
    entry; and every count it lists is the number of connections in the
    room and is at least 1. *)
Theorem get_all_rooms_counts w :
  reachable_by fresh_user w →
  let c := connection_manager w in
  dom (ConnectionManager.get_all_rooms c) = dom (active_connections c)
  ∧ (∀ r, default 0 (ConnectionManager.get_all_rooms c !! r)
          = ConnectionManager.get_room_member_count c r)
  ∧ (∀ r n, ConnectionManager.get_all_rooms c !! r = Some n →
            n = size (room_connections c r) ∧ 0 < n).
Proof.
  intros Hreach c.
  pose proof (reachable_inv w (reachable_fresh_user_session w Hreach)) as [Hk Hne Hcs Hsc].
  pose proof (reachable_members_inv w Hreach) as [Hu Hms Hsm Hsz].
  fold c in Hk, Hne, Hsz.
  assert (Hcount : ∀ r, default 0 (ConnectionManager.get_all_rooms c !! r)
                        = ConnectionManager.get_room_member_count c r).
  { intros r. unfold ConnectionManager.get_all_rooms, ConnectionManager.get_room_member_count.
    rewrite lookup_fmap. by destruct (room_members c !! r). }
  split; [|split; [done|]].
  - unfold ConnectionManager.get_all_rooms. apply leibniz_equiv. rewrite dom_fmap.
    by rewrite Hk.
  - intros r n Hn. unfold ConnectionManager.get_all_rooms in Hn.
    apply lookup_fmap_Some in Hn as (ids & <- & Hm).
    assert (is_Some (active_connections c !! r)) as [conns Hc].
    { apply elem_of_dom. rewrite Hk. apply elem_of_dom. eauto. }
    rewrite (room_connections_Some _ _ _ Hc), (Hsz r conns ids Hc Hm).
    split; [done|]. specialize (Hne r conns Hc).
    destruct (decide (size conns = 0)) as [Hz|]; [|lia].
    apply size_empty_inv in Hz. by apply leibniz_equiv in Hz.
Qed.

Lemma get_all_rooms_counts_witness :
  reachable_by fresh_user chat_world
  ∧ ConnectionManager.get_all_rooms (connection_manager chat_world) !! "general" = Some 2
  ∧ 2 = size (room_connections (connection_manager chat_world) "general").
Proof.
  split; [exact chat_world_fresh_user|].
  assert (H : ConnectionManager.get_all_rooms (connection_manager chat_world) !! "general"
              = Some 2) by (by vm_compute).
  split; [exact H|].
  exact (proj1 (proj2 (proj2 (get_all_rooms_counts chat_world chat_world_fresh_user))
                 "general" 2 H)).
Defined.

(** ** [connect] undone by [disconnect] *)

Lemma fresh_user_welcomes w a ws user r :
  reachable_by fresh_user w →
  fresh_user w (Connect a ws user r) →
  welcomes (connection_manager w) ws user.
Proof.
  intros Hreach [(Hfresh & Hobj & Hnr) Hid].
  pose proof (reachable_inv w (reachable_fresh_user_session w Hreach)) as [Hk Hne Hcs Hsc].
  pose proof (reachable_members_inv w Hreach) as [Hu Hms Hsm Hsz].
  apply not_elem_of_dom in Hfresh.
  split; [done|]. split; [done|]. split; [done|]. split.
  - intros r' Hin. destruct (Hcs r' ws Hin) as (u & Hu' & _). congruence.
  - intros r' ids Hm Hin.
    destruct (Hms _ _ _ Hm Hin) as (ws' & u' & _ & Hs' & Hi). by eapply Hid.
Qed.

Lemma connect_welcomed w ws user r :
  welcomes (connection_manager w) ws user →
  ∃ conns ids,
    ConnectionManager.connect None ws user r w = Ok tt (connected w ws user r conns ids)
    ∧ (ws ∉ conns) ∧ (id user ∉ ids)
    ∧ (active_connections (connection_manager w) !! r = None ∧ conns = ∅
         ∧ room_members (connection_manager w) !! r = None ∧ ids = ∅
       ∨ active_connections (connection_manager w) !! r = Some conns ∧ conns ≠ ∅
         ∧ room_members (connection_manager w) !! r = Some ids).
Proof.
  intros (Hk & Hne & Hfresh & Hws & Hid).
  destruct (active_connections (connection_manager w) !! r) as [conns|] eqn:Hc.
  - destruct (keys_agree_lookup _ _ _ Hk Hc) as [ids Hm].
    rewrite (connect_old_room w ws user r conns ids Hc Hm).
    exists conns, ids. split; [done|]. split; [|split].
    + specialize (Hws r). by rewrite (room_connections_Some _ _ _ Hc) in Hws.
    + by apply (Hid r).
    + right. eauto.
  - rewrite (connect_new_room w ws user r Hc).
    exists ∅, ∅. split; [done|]. split; [set_solver|]. split; [set_solver|]. left.
    repeat split; try done. apply not_elem_of_dom. rewrite <- Hk. by apply not_elem_of_dom.
Qed.

(** A [disconnect] in any world that has the registry [connect] left and
    the room the user object was given. *)
Lemma connect_undone w ws user r w2 :
  welcomes (connection_manager w) ws user →
  r ≠ "" →
  connection_manager w2
    = connection_manager (world_of (ConnectionManager.connect None ws user r w)) →
  current_room w2 !! obj user = Some r →
  ∃ w3, ConnectionManager.disconnect ws w2 = Ok tt w3
        ∧ connection_manager w3 = connection_manager w
        ∧ redis_manager w3 = redis_manager w2
        ∧ rooms_db w3 = rooms_db w2.
Proof.
  intros Hwel Hnr Hcm Hroom.
  destruct (connect_welcomed w ws user r Hwel) as (conns & ids & Hj & Hws & Hidn & Hcase).
  destruct Hwel as (Hk & Hne & Hfresh & _ & _).
  rewrite Hj in Hcm. simpl in Hcm.
  rewrite (disconnect_room w2 ws user r (conns ∪ {[ws]}) (ids ∪ {[id user]}));
    try done; try (rewrite Hcm; simpl; by rewrite lookup_insert_eq).
  eexists. split; [reflexivity|]. split; [|done]. simpl. rewrite Hcm. simpl.
  destruct (connection_manager w) as [ac us rm] eqn:Hw. simpl in *.
  assert (Hc' : (conns ∪ {[ws]}) ∖ {[ws]} = conns) by set_solver.
  assert (Hi' : (ids ∪ {[id user]}) ∖ {[id user]} = ids) by set_solver.
  rewrite Hc', Hi'. rewrite (delete_insert_eq us ws user), (delete_id us ws Hfresh).
  clear Hj Hcm.
  destruct Hcase as [(Hc & -> & Hm & ->)|(Hc & Hcne & Hm)];
    repeat case_decide; try done.
  - by rewrite !delete_insert_eq, (delete_id ac r Hc), (delete_id rm r Hm).
  - by rewrite !insert_insert_eq, (insert_id ac r conns Hc), (insert_id rm r ids Hm).
Qed.

(** X5.  In every state the registry reaches with fresh users, a [connect]
    of one more fresh user returns normally, after it [get_user_info] gives
    the user for the websocket and the websocket is among the connections
    of the room; the [disconnect] of that websocket right after returns
    normally too and leaves the three dictionaries exactly as they were
    before the [connect], a room created for the user being deleted
    again. *)
Theorem connect_disconnect_roundtrip w ws user r :
  reachable_by fresh_user w →
  fresh_user w (Connect None ws user r) →
  let joined := ConnectionManager.connect None ws user r w in
  let left := ConnectionManager.disconnect ws (world_of joined) in
  returns joined = true
  ∧ ConnectionManager.get_user_info (connection_manager (world_of joined)) ws = Some user
  ∧ ws ∈ room_connections (connection_manager (world_of joined)) r
  ∧ returns left = true
  ∧ connection_manager (world_of left) = connection_manager w.
Proof.
  intros Hreach Hf joined left.
  pose proof (fresh_user_welcomes w None ws user r Hreach Hf) as Hwel.
  destruct Hf as [(_ & _ & Hnr) _].
  destruct (connect_welcomed w ws user r Hwel) as (conns & ids & Hj & _).
  destruct (connect_undone w ws user r (world_of joined) Hwel Hnr eq_refl)
    as (w3 & Hd & Hcm & _).
  { subst joined. rewrite Hj. simpl. by rewrite lookup_insert_eq. }
  subst left. rewrite Hd. subst joined. rewrite Hj. simpl.
  split; [done|]. split; [by unfold ConnectionManager.get_user_info; simpl;
                             rewrite lookup_insert_eq|].
  split; [|done].
  unfold room_connections. simpl. rewrite lookup_insert_eq. simpl. set_solver.
Qed.

Lemma dave_is_fresh : fresh_user chat_world (Connect None 13 dave "general").
Proof.
  split; [split; [by vm_compute|]; split; [|done]|]; intros ws' u' Hu Heq;
    apply (elem_of_map_to_list (user_sessions _)) in Hu;
    vm_compute in Hu; set_solver.
Qed.

Lemma connect_disconnect_roundtrip_witness :
  reachable_by fresh_user chat_world
  ∧ fresh_user chat_world (Connect None 13 dave "general")
  ∧ connection_manager
      (world_of (ConnectionManager.disconnect 13
         (world_of (ConnectionManager.connect None 13 dave "general" chat_world))))
    = connection_manager chat_world.
Proof.
  split; [exact chat_world_fresh_user|]. split; [exact dave_is_fresh|].
  exact (proj2 (proj2 (proj2 (proj2
    (connect_disconnect_roundtrip chat_world 13 dave "general"
       chat_world_fresh_user dave_is_fresh))))).
Defined.

(** ** [disconnect] twice *)

Lemma disconnect_sessions w ws :
  keys_agree (connection_manager w) →
  user_sessions (connection_manager (world_of (ConnectionManager.disconnect ws w)))
  = delete ws (user_sessions (connection_manager w)).
Proof.
  intros Hk.
  destruct (disconnect_cases w ws) as [Hs| | |user r conns ? ? ? Hc Hm]; simpl; try done.
  - by rewrite delete_id.
  - destruct (keys_agree_lookup _ _ _ Hk Hc) as [ids Hi]. congruence.
Qed.

(** X6.  While rooms and member sets have the same keys, a second
    [disconnect] of the same websocket returns normally and changes
    nothing, not even the log; and the first one leaves the session of
    every other websocket as it was. *)
Theorem disconnect_idempotent w ws :
  keys_agree (connection_manager w) →
  let once := world_of (ConnectionManager.disconnect ws w) in
  ConnectionManager.disconnect ws once = Ok tt once
  ∧ (∀ ws', ws' ≠ ws →
       ConnectionManager.get_user_info (connection_manager once) ws'
       = ConnectionManager.get_user_info (connection_manager w) ws').
Proof.
  intros Hk once. split.
  - apply disconnect_unknown. apply (disconnect_forgets w ws Hk).
  - intros ws' Hne. unfold ConnectionManager.get_user_info, once.
    by rewrite disconnect_sessions, lookup_delete_ne.
Qed.

Lemma disconnect_idempotent_witness :
  keys_agree (connection_manager chat_world)
  ∧ ConnectionManager.disconnect 11 (world_of (ConnectionManager.disconnect 11 chat_world))
    = Ok tt (world_of (ConnectionManager.disconnect 11 chat_world)).
Proof.
  assert (Hk : keys_agree (connection_manager chat_world)) by (by vm_compute).
  split; [exact Hk|]. exact (proj1 (disconnect_idempotent chat_world 11 Hk)).
Defined.

(** ** [broadcast_to_room] with any number of failing connections *)

Lemma for_each_disconnect_sessions l : ∀ w c,
  keys_agree (connection_manager w) →
  user_sessions (connection_manager (world_of (for_each l ConnectionManager.disconnect w))) !! c
  = if decide (c ∈ l) then None else user_sessions (connection_manager w) !! c.
Proof.
  induction l as [|ws l IH]; intros w c Hk.
  - case_decide as Hin; [by apply elem_of_nil in Hin|done].
  - cbn [for_each]. unfold mbind, M_bind.
    destruct (disconnect_keys_agree w ws Hk) as [Hret Hk'].
    pose proof (disconnect_sessions w ws Hk) as Hs.
    destruct (ConnectionManager.disconnect ws w) as [[] w'|e w']; simpl in Hret, Hk', Hs;
      [|done].
    rewrite IH by done. rewrite Hs.
    destruct (decide (c ∈ l)) as [Hin|Hin].
    + rewrite decide_True; [done|]. apply elem_of_cons; by right.
    + destruct (decide (c = ws)) as [->|Hne].
      * rewrite lookup_delete_eq. rewrite decide_True; [done|]. apply elem_of_cons; by left.
      * rewrite lookup_delete_ne by done. rewrite decide_False; [done|].
        intros [->|?]%elem_of_cons; done.
Qed.

Lemma broadcast_room_deliveries w raises room message conns :
  keys_agree (connection_manager w) →
  active_connections (connection_manager w) !! room = Some conns →
  let result := ConnectionManager.broadcast_to_room raises room message w in
  returns result = true
  ∧ deliveries (new_events w (world_of result))
    ≡ₚ (λ c, (c, model_dump_json message)) <$> elements (filter (λ c, raises c = None) conns).
Proof.
  intros Hk Hc result.
  destruct (broadcast_trace w raises room message conns Hc) as (logs & Ht & Hl).
  fold result in Ht. split.
  - unfold result. rewrite (broadcast_room _ _ _ _ conns) by done.
    by apply for_each_disconnect_keys_agree.
  - rewrite Ht, deliveries_app, deliveries_sweep, (deliveries_logs logs Hl), app_nil_r.
    apply fmap_Permutation, NoDup_Permutation.
    + apply NoDup_filter, NoDup_elements.
    + apply NoDup_elements.
    + intros c. rewrite list_elem_of_filter, !elem_of_elements, elem_of_filter. tauto.
Qed.

(** X7.  While rooms and member sets have the same keys, a broadcast to a
    room that has connections returns normally whichever of the sends fail:
    a send is attempted on every connection of the room once, the text of
    the message arrives on exactly the connections whose send did not fail,
    and afterwards the connections of the room whose send failed have no
    session while every other websocket has the session it had. *)
Theorem broadcast_reaches_the_healthy w raises room message conns :
  keys_agree (connection_manager w) →
  active_connections (connection_manager w) !! room = Some conns →
  let result := ConnectionManager.broadcast_to_room raises room message w in
  let sent := new_events w (world_of result) in
  returns result = true
  ∧ attempts sent ≡ₚ elements conns
  ∧ deliveries sent
    ≡ₚ (λ c, (c, model_dump_json message)) <$> elements (filter (λ c, raises c = None) conns)
  ∧ (∀ c, ConnectionManager.get_user_info (connection_manager (world_of result)) c
          = if decide (c ∈ conns ∧ is_Some (raises c)) then None
            else ConnectionManager.get_user_info (connection_manager w) c).
Proof.
  intros Hk Hc result sent.
  destruct (broadcast_room_deliveries w raises room message conns Hk Hc) as [Hret Hd].
  set (swept := set_trace
        (trace w ++ sweep_events raises (model_dump_json message) (elements conns)) w).
  assert (Hres : result = for_each (elements (sweep_failed raises (elements conns)))
                            ConnectionManager.disconnect swept).
  { unfold result. by rewrite (broadcast_room _ _ _ _ conns). }
  destruct (broadcast_trace w raises room message conns Hc) as (logs & Ht & Hl).
  fold result in Ht. fold sent in Ht.
  split; [done|]. split; [|split; [done|]].
  - by rewrite Ht, attempts_app, attempts_sweep, (attempts_logs logs Hl), app_nil_r.
  - intros c. unfold ConnectionManager.get_user_info. rewrite Hres.
    rewrite for_each_disconnect_sessions by done. simpl.
    assert (Hiff : c ∈ elements (sweep_failed raises (elements conns))
                   ↔ c ∈ conns ∧ is_Some (raises c)).
    { unfold sweep_failed.
      rewrite elem_of_elements, elem_of_list_to_set, list_elem_of_filter, elem_of_elements.
      tauto. }
    destruct (decide (c ∈ elements _)) as [Hin|Hin];
      destruct (decide (c ∈ conns ∧ _)) as [Hin'|Hin']; try done; tauto.
Qed.

Lemma broadcast_reaches_the_healthy_witness :
  keys_agree (connection_manager chat_world)
  ∧ active_connections (connection_manager chat_world) !! "general" = Some {[10; 11]}
  ∧ ConnectionManager.get_user_info
      (connection_manager
         (world_of (ConnectionManager.broadcast_to_room bob_is_gone "general" hello chat_world)))
      10 = Some alice.
Proof.
  assert (Hk : keys_agree (connection_manager chat_world)) by (by vm_compute).
  assert (Hc : active_connections (connection_manager chat_world) !! "general"
               = Some {[10; 11]}) by (by vm_compute).
  split; [exact Hk|]. split; [exact Hc|].
  rewrite (proj2 (proj2 (proj2
    (broadcast_reaches_the_healthy chat_world bob_is_gone "general" hello {[10; 11]} Hk Hc))) 10).
  by vm_compute.
Defined.

(** ** From the broker back to the room *)

Lemma after_first_colon_room room : after_first_colon ("room:" +:+ room) = Some room.
Proof. by rewrite !append_cons, append_nil_l. Qed.

Lemma Message_from_json_model_dump_json utcnow m :
  valid_datetime (timestamp m) = true →
  Message_from_json utcnow (model_dump_json m) = inr m.
Proof.
  intros Hv. unfold Message_from_json. rewrite json_loads_model_dump_json.
  unfold Message_members, Message_of_dict, reverse.
  cbn [rev_append list_to_map foldr uncurry fst snd].
  repeat (first [rewrite lookup_insert_eq | rewrite lookup_insert_ne by done]).
  rewrite MessageType_of_value_value, fromisoformat_isoformat by done.
  by destruct m.
Qed.

Lemma broadcast_deliveries w raises room message :
  keys_agree (connection_manager w) →
  let result := ConnectionManager.broadcast_to_room raises room message w in
  returns result = true
  ∧ deliveries (new_events w (world_of result))
    ≡ₚ (λ c, (c, model_dump_json message))
       <$> elements (filter (λ c, raises c = None) (room_connections (connection_manager w) room)).
Proof.
  intros Hk result.
  destruct (active_connections (connection_manager w) !! room) as [conns|] eqn:Hc.
  - rewrite (room_connections_Some _ _ _ Hc).
    by destruct (broadcast_room_deliveries w raises room message conns Hk Hc).
  - rewrite (room_connections_None _ _ Hc). subst result.
    rewrite (broadcast_no_room _ _ _ _ Hc). simpl. split; [done|].
    rewrite (new_events_app w _ [log_no_room room]) by done. simpl.
    assert (He : filter (λ c, raises c = None) (∅ : gset WebSocket) = ∅) by set_solver.
    by rewrite He, elements_empty.
Qed.

Lemma publish_message_published room m w :
  is_Some (redis_client (redis_manager w)) →
  published (new_events w (world_of (RedisManager.publish_message None room m w)))
  = [("room:" +:+ room, model_dump_json m)].
Proof.
  intros [client Hclient].
  unfold RedisManager.publish_message, RedisManager.redis_publish, RedisManager.self,
    mbind, M_bind, try_except, logger, emit. rewrite Hclient. simpl.
  by rewrite (new_events_app w _ [Publish ("room:" +:+ room) (model_dump_json m);
    Log DEBUG ("Published message to " +:+ ("room:" +:+ room))])
    by (simpl; by rewrite <- app_assoc).
Qed.

Section Relay.

Context (call : Callable → string → Message → M unit) (utcnow : datetime).

Lemma on_message_broadcasts send_raises w room m :
  call handle_redis_message_id = handle_redis_message send_raises →
  message_handler (redis_manager w) = Some handle_redis_message_id →
  valid_datetime (timestamp m) = true →
  RedisManager.on_message call utcnow
    (mkPubsubMessage "message" ("room:" +:+ room) (model_dump_json m)) w
  = Ok tt (deliver call utcnow w
             (mkPubsubMessage "message" ("room:" +:+ room) (model_dump_json m)))
  ∧ ∀ u w', ConnectionManager.broadcast_to_room send_raises room m w = Ok u w' →
            deliver call utcnow w
              (mkPubsubMessage "message" ("room:" +:+ room) (model_dump_json m)) = w'.
Proof.
  intros Hcall Hh Hv. split; [apply on_message_deliver|].
  intros u w' Hb. unfold deliver, decode_event. cbn [type channel data].
  rewrite decide_True by done.
  rewrite after_first_colon_room, Message_from_json_model_dump_json by done.
  rewrite Hh, Hcall. unfold handle_redis_message. by rewrite Hb.
Qed.

(** X8.  A message with a timestamp a [datetime] can hold, published to a
    room by an instance whose relay is connected, reaches the broker as one
    payload on the channel "room:" followed by the room id.  When that
    payload comes back from the broker to an instance whose registered
    handler is [handle_redis_message], the listener returns normally and
    the text [model_dump_json] wrote arrives on exactly the connections the
    instance has in that room whose send does not fail; an instance without
    connections in the room delivers nothing.  Neither the room id, which
    may hold colons, nor the content restricts this. *)
Theorem published_message_reaches_room send_raises sender w room m :
  call handle_redis_message_id = handle_redis_message send_raises →
  message_handler (redis_manager w) = Some handle_redis_message_id →
  is_Some (redis_client (redis_manager sender)) →
  valid_datetime (timestamp m) = true →
  keys_agree (connection_manager w) →
  let channel := "room:" +:+ room in
  let payload := model_dump_json m in
  let result := RedisManager.on_message call utcnow (mkPubsubMessage "message" channel payload) w in
  published (new_events sender (world_of (RedisManager.publish_message None room m sender)))
  = [(channel, payload)]
  ∧ returns result = true
  ∧ deliveries (new_events w (world_of result))
    ≡ₚ (λ c, (c, payload))
       <$> elements (filter (λ c, send_raises c = None)
                       (room_connections (connection_manager w) room)).
Proof.
  intros Hcall Hh Hclient Hv Hk channel payload result.
  split; [by apply publish_message_published|].
  destruct (on_message_broadcasts send_raises w room m Hcall Hh Hv) as [Hrun Hw].
  subst result channel payload. rewrite Hrun. split; [done|].
  destruct (broadcast_deliveries w send_raises room m Hk) as [Hret Hd].
  destruct (ConnectionManager.broadcast_to_room send_raises room m w) as [[] w'|e w'] eqn:Hb;
    [|done].
  by rewrite (Hw tt w' eq_refl).
Qed.

(** X9.  On a subscribed relay the listener serves the events the broker
    yields in turn until the iteration is cancelled or raises; then
    [start_listening] returns normally, having written one record to the
    log: that it was cancelled, or the error of the connection.  Whatever
    the broker would have yielded after that is never looked at. *)
Theorem listener_stops_at_first_stop before stop rest w :
  is_Some (pubsub (redis_manager w)) →
  (∀ m, stop ≠ Yield m) →
  let served := foldl (deliver call utcnow)
                  (set_trace (trace w ++ [Log INFO "Started Redis listener"]) w) before in
  RedisManager.start_listening call utcnow ((Yield <$> before) ++ stop :: rest) w
  = Ok tt (set_trace
             (trace served ++
              [match stop with
               | ListenRaises e => Log ERROR ("Error in Redis listener: " +:+ exn_str e)
               | _ => Log INFO "Redis listener cancelled"
               end]) served).
Proof.
  intros [chans Hp] Hstop served.
  assert (Hloop : ∀ w0, RedisManager.listen_loop call utcnow
                          ((Yield <$> before) ++ stop :: rest) w0
                        = RedisManager.listen_loop call utcnow (stop :: rest)
                            (foldl (deliver call utcnow) w0 before)).
  { induction before as [|m before IH]; intros w0; [done|].
    cbn [fmap list_fmap app RedisManager.listen_loop foldl]. unfold mbind, M_bind.
    rewrite on_message_deliver. apply IH. }
  unfold RedisManager.start_listening.
  unfold mbind, M_bind, RedisManager.self, try_except, logger, emit. rewrite Hp.
  rewrite Hloop. fold served.
  destruct stop as [m| |e]; [by destruct (Hstop m)|done|done].
Qed.

End Relay.

Lemma published_message_reaches_room_witness :
  message_handler (redis_manager relayed_chat) = Some handle_redis_message_id
  ∧ is_Some (redis_client (redis_manager started))
  ∧ valid_datetime (timestamp hello) = true
  ∧ keys_agree (connection_manager relayed_chat)
  ∧ deliveries
      (new_events relayed_chat
         (world_of (RedisManager.on_message (λ _, handle_redis_message bob_is_gone) noon
                      (mkPubsubMessage "message" "room:general" (model_dump_json hello))
                      relayed_chat)))
    ≡ₚ (λ c, (c, model_dump_json hello))
       <$> elements (filter (λ c, bob_is_gone c = None)
                       (room_connections (connection_manager relayed_chat) "general")).
Proof.
  assert (Hh : message_handler (redis_manager relayed_chat) = Some handle_redis_message_id)
    by reflexivity.
  assert (Hc : is_Some (redis_client (redis_manager started))) by (by eexists).
  assert (Hv : valid_datetime (timestamp hello) = true) by reflexivity.
  assert (Hk : keys_agree (connection_manager relayed_chat)) by (by vm_compute).
  split; [exact Hh|]. split; [exact Hc|]. split; [exact Hv|]. split; [exact Hk|].
  exact (proj2 (proj2 (published_message_reaches_room
                         (λ _, handle_redis_message bob_is_gone) noon
                         bob_is_gone started relayed_chat "general" hello
                         eq_refl Hh Hc Hv Hk))).
Defined.

Lemma listener_stops_at_first_stop_witness :
  is_Some (pubsub (redis_manager started))
  ∧ new_events started
      (world_of (RedisManager.start_listening fragile_handler noon
                   ((Yield <$> take 2 inbound) ++ Cancelled :: (Yield <$> drop 2 inbound))
                   started))
    = [Log INFO "Started Redis listener";
       Log ERROR "Error processing message: JSONDecodeError";
       Log INFO "Redis listener cancelled"].
Proof.
  assert (H : is_Some (pubsub (redis_manager started))) by (by eexists).
  split; [exact H|].
  rewrite (listener_stops_at_first_stop fragile_handler noon (take 2 inbound) Cancelled
             (Yield <$> drop 2 inbound) started H); [by vm_compute|done].
Defined.

(** ** The relay when the broker fails *)

Lemma beside_registry_trans w1 w2 w3 :
  beside_registry w1 w2 → beside_registry w2 w3 → beside_registry w1 w3.
Proof. intros (? & ? & ?) (? & ? & ?). repeat split; congruence. Qed.

Lemma publish_message_beside pr room m w :
  ∃ w', RedisManager.publish_message pr room m w = Ok tt w'
        ∧ beside_registry w w' ∧ redis_manager w' = redis_manager w.
Proof.
  unfold RedisManager.publish_message, RedisManager.redis_publish,
    RedisManager.self, mbind, M_bind, try_except, logger, emit, raise.
  destruct (redis_client (redis_manager w)) as [client|]; [destruct pr as [e|]|];
    simpl; eexists; by repeat split.
Qed.

Lemma subscribe_to_room_beside sr room w :
  ∃ w', RedisManager.subscribe_to_room sr room w = Ok tt w'
        ∧ beside_registry w w'
        ∧ default ∅ (pubsub (redis_manager w)) ⊆ default ∅ (pubsub (redis_manager w'))
        ∧ (is_Some (pubsub (redis_manager w)) → sr = None →
           "room:" +:+ room ∈ default ∅ (pubsub (redis_manager w'))).
Proof.
  unfold RedisManager.subscribe_to_room, RedisManager.pubsub_subscribe,
    RedisManager.self, RedisManager.update, mbind, M_bind, try_except, logger, emit, raise.
  destruct (pubsub (redis_manager w)) as [chans|] eqn:Hp; [destruct sr as [e|]|];
    simpl; eexists; (split; [reflexivity|]); (split; [done|]); simpl; rewrite ?Hp; simpl;
    (split; [set_solver|]); try done; try set_solver.
Qed.

(** X10.  On a connected relay a failure of the broker never reaches the
    caller.  [publish_message] returns normally when the publish raises:
    the broker took no payload, the error is in the log, and the message is
    gone.  [subscribe_to_room] returns normally when the subscribe raises:
    the error is in the log and the relay is subscribed to what it was
    subscribed to before.  Neither touches the registry or the room
    store. *)
Theorem broker_failure_is_swallowed e room m w :
  is_Some (redis_client (redis_manager w)) →
  is_Some (pubsub (redis_manager w)) →
  let sent := RedisManager.publish_message (Some e) room m w in
  let subscribed := RedisManager.subscribe_to_room (Some e) room w in
  returns sent = true
  ∧ published (new_events w (world_of sent)) = []
  ∧ last (new_events w (world_of sent))
    = Some (Log ERROR ("Error publishing message: " +:+ exn_str e))
  ∧ redis_manager (world_of sent) = redis_manager w
  ∧ beside_registry w (world_of sent)
  ∧ returns subscribed = true
  ∧ last (new_events w (world_of subscribed))
    = Some (Log ERROR ("Error subscribing to room: " +:+ exn_str e))
  ∧ redis_manager (world_of subscribed) = redis_manager w
  ∧ beside_registry w (world_of subscribed).
Proof.
  intros [client Hc] [chans Hp] sent subscribed. subst sent subscribed.
  unfold RedisManager.publish_message, RedisManager.redis_publish,
    RedisManager.subscribe_to_room, RedisManager.pubsub_subscribe,
    RedisManager.self, RedisManager.update, mbind, M_bind, try_except, logger, emit, raise.
  rewrite Hc, Hp. simpl.
  rewrite (new_events_app w _
             [PublishFailed ("room:" +:+ room) (model_dump_json m);
              Log ERROR ("Error publishing message: " +:+ exn_str e)])
    by (simpl; by rewrite <- app_assoc).
  rewrite (new_events_app w _
             [SubscribeFailed ("room:" +:+ room);
              Log ERROR ("Error subscribing to room: " +:+ exn_str e)])
    by (simpl; by rewrite <- app_assoc).
  by repeat split.
Qed.

Lemma broker_failure_is_swallowed_witness :
  is_Some (redis_client (redis_manager started))
  ∧ is_Some (pubsub (redis_manager started))
  ∧ returns (RedisManager.publish_message (Some (RuntimeError "down")) "general" hello started)
    = true.
Proof.
  assert (Hc : is_Some (redis_client (redis_manager started))) by (by eexists).
  assert (Hp : is_Some (pubsub (redis_manager started))) by (by eexists).
  split; [exact Hc|]. split; [exact Hp|].
  exact (proj1 (broker_failure_is_swallowed (RuntimeError "down") "general" hello started
                  Hc Hp)).
Defined.

(** ** Startup *)

(** X11.  [lifespan] up to its [yield] never touches the registry, and it
    does all of its work or none.  When the broker cannot be reached the
    exception of the connection attempt leaves [lifespan]: no room was
    created, no handler registered, no listener started.  Otherwise it
    returns normally with the relay connected and subscribed to nothing,
    [handle_redis_message] registered, a listener task in place, and the
    rooms "general", "random" and "tech" stored under their ids with a
    member count of 0, beside the rooms that were stored before. *)
Theorem startup_all_or_nothing from_url_raises utcnow w :
  let result := lifespan_startup from_url_raises utcnow w in
  connection_manager (world_of result) = connection_manager w
  ∧ match from_url_raises with
    | Some e =>
        (∃ w', result = Raise e w')
        ∧ rooms_db (world_of result) = rooms_db w
        ∧ redis_manager (world_of result) = redis_manager w
    | None =>
        returns result = true
        ∧ dom (rooms_db (world_of result))
          = dom (rooms_db w) ∪ {["general"; "random"; "tech"]}
        ∧ (∀ room_id, room_id ∈ ["general"; "random"; "tech"] →
             ∃ room, rooms_db (world_of result) !! room_id = Some room
                     ∧ room_key room = room_id ∧ member_count room = 0)
        ∧ (∀ room_id, room_id ∉ ["general"; "random"; "tech"] →
             rooms_db (world_of result) !! room_id = rooms_db w !! room_id)
        ∧ is_Some (redis_client (redis_manager (world_of result)))
        ∧ pubsub (redis_manager (world_of result)) = Some ∅
        ∧ message_handler (redis_manager (world_of result)) = Some handle_redis_message_id
        ∧ is_Some (listener_task (redis_manager (world_of result)))
    end.
Proof.
  intros result. subst result.
  destruct from_url_raises as [e|]; [by repeat split; try eexists|].
  unfold lifespan_startup, default_rooms. cbn [for_each fst snd].
  unfold RedisManager.connect, RedisManager.from_url,
    RedisManager.set_message_handler, RedisManager.start_listener_task,
    RedisManager.update, RedisManager.self, setitem_rooms_db, try_except, logger, emit,
    mbind, M_bind, mret, M_ret.
  cbn.
  assert (Hdb : ∀ db : gmap string Room, ∀ g r t : Room,
    room_key g = "general" → member_count g = 0 →
    room_key r = "random" → member_count r = 0 →
    room_key t = "tech" → member_count t = 0 →
    dom (<["tech" := t]> (<["random" := r]> (<["general" := g]> db)))
      = dom db ∪ {["general"; "random"; "tech"]}
    ∧ (∀ room_id, room_id ∈ ["general"; "random"; "tech"] →
         ∃ room, <["tech" := t]> (<["random" := r]> (<["general" := g]> db)) !! room_id
                 = Some room
                 ∧ room_key room = room_id ∧ member_count room = 0)
    ∧ (∀ room_id, room_id ∉ ["general"; "random"; "tech"] →
         <["tech" := t]> (<["random" := r]> (<["general" := g]> db)) !! room_id
         = db !! room_id)).
  { intros db g r t Hg Hg0 Hr Hr0 Ht Ht0. split; [|split].
    - rewrite !dom_insert_L. set_solver.
    - intros room_id Hin.
      repeat (apply elem_of_cons in Hin as [->|Hin]); [..|by apply elem_of_nil in Hin].
      + exists g. by simplify_map_eq.
      + exists r. by simplify_map_eq.
      + exists t. by simplify_map_eq.
    - intros room_id Hin. rewrite !lookup_insert_ne; [done|..];
        intros <-; apply Hin; set_solver. }
  destruct (Hdb (rooms_db w) (mkRoom "general" "General" utcnow 0)
              (mkRoom "random" "Random" utcnow 0) (mkRoom "tech" "Tech Talk" utcnow 0))
    as (H1 & H2 & H3); try reflexivity.
  destruct (listener_task (redis_manager w)) as [[|]|] eqn:Hl; cbn; rewrite ?Hl;
    (split; [done|]; split; [done|]; split; [exact H1|]; split; [exact H2|];
     split; [exact H3|]; split; [by eexists|]; split; [done|]; split; [done|by eexists]).
Qed.

(** ** The gateway from the handshake to the last read *)

Lemma receive_loop_beside user_id username room frames e : ∀ w,
  ∃ w', receive_loop user_id username room ((frame_step <$> frames) ++ [ReceiveRaises e]) w
        = Raise e w'
        ∧ beside_registry w w' ∧ redis_manager w' = redis_manager w.
Proof.
  induction frames as [|frame frames IH]; intros w; simpl.
  - exists w. by repeat split.
  - destruct (publish_message_beside frame.2 room
                (mkMessage user_id username room frame.1.1 CHAT frame.1.2) w)
      as (w1 & Hp & Hb & Hr).
    unfold mbind, M_bind. rewrite Hp.
    destruct (IH w1) as (w' & Hl & Hb' & Hr').
    exists w'. split; [done|]. split; [by eapply beside_registry_trans|congruence].
Qed.

Lemma receive_loop_open user_id username room frames : ∀ w,
  ∃ w', receive_loop user_id username room (frame_step <$> frames) w = Ok tt w'
        ∧ beside_registry w w' ∧ redis_manager w' = redis_manager w.
Proof.
  induction frames as [|frame frames IH]; intros w; simpl.
  - exists w. by repeat split.
  - destruct (publish_message_beside frame.2 room
                (mkMessage user_id username room frame.1.1 CHAT frame.1.2) w)
      as (w1 & Hp & Hb & Hr).
    unfold mbind, M_bind. rewrite Hp.
    destruct (IH w1) as (w' & Hl & Hb' & Hr').
    exists w'. split; [done|]. split; [by eapply beside_registry_trans|congruence].
Qed.

(** X12.  When the handshake of a request to a room that exists fails, the
    exception of [accept] leaves [websocket_endpoint]: nothing was written
    to the log or sent, nothing was subscribed or published, and the
    registry, the relay and the room store are as they were. *)
Theorem handshake_failure_escapes q w e :
  path_room_id q ∈ dom (rooms_db w) →
  accept_raises q = Some e →
  let result := websocket_endpoint q w in
  (∃ w', result = Raise e w')
  ∧ new_events w (world_of result) = []
  ∧ connection_manager (world_of result) = connection_manager w
  ∧ redis_manager (world_of result) = redis_manager w
  ∧ rooms_db (world_of result) = rooms_db w.
Proof.
  intros Hroom Ha result. subst result. unfold websocket_endpoint. rewrite Ha.
  unfold ConnectionManager.assign_current_room, ConnectionManager.connect,
    ConnectionManager.accept, mbind, M_bind, raise. simpl.
  rewrite decide_True by done. simpl.
  split; [by eexists|]. split; [|done].
  unfold new_events. simpl. by rewrite drop_all.
Qed.

Lemma handshake_failure_escapes_witness :
  ("general" ∈ dom (rooms_db started))
  ∧ connection_manager (world_of (websocket_endpoint refused_request started))
    = connection_manager started.
Proof.
  assert (Hroom : "general" ∈ dom (rooms_db started)) by (by vm_compute).
  split; [exact Hroom|].
  exact (proj1 (proj2 (proj2 (handshake_failure_escapes refused_request started
                                (RuntimeError "reset") Hroom eq_refl)))).
Defined.

Lemma websocket_endpoint_session q w frames e :
  welcomes (connection_manager w) (websocket q) (request_user q) →
  path_room_id q ≠ "" →
  path_room_id q ∈ dom (rooms_db w) →
  accept_raises q = None →
  received q = (frame_step <$> frames) ++ [ReceiveRaises e] →
  ∃ w', websocket_endpoint q w = Ok tt w'
    ∧ connection_manager w' = connection_manager w
    ∧ rooms_db w' = rooms_db w
    ∧ default ∅ (pubsub (redis_manager w)) ⊆ default ∅ (pubsub (redis_manager w'))
    ∧ (is_Some (pubsub (redis_manager w)) → subscribe_raises q = None →
       "room:" +:+ path_room_id q ∈ default ∅ (pubsub (redis_manager w'))).
Proof.
  intros Hwel Hnr Hroom Haccept Hrecv.
  unfold websocket_endpoint. rewrite Haccept, Hrecv.
  fold (request_user q).
  unfold mbind at 1. unfold M_bind at 1. unfold ConnectionManager.assign_current_room.
  unfold mbind at 1. unfold M_bind at 1. cbn [rooms_db set_current_room].
  rewrite decide_True by done.
  set (w0 := set_current_room _ w).
  assert (Hwel0 : welcomes (connection_manager w0) (websocket q) (request_user q)) by done.
  destruct (connect_welcomed w0 (websocket q) (request_user q) (path_room_id q) Hwel0)
    as (conns & ids & Hconn & _).
  unfold mbind at 1. unfold M_bind at 1. rewrite Hconn.
  set (w1 := connected w0 _ _ _ conns ids).
  destruct (subscribe_to_room_beside (subscribe_raises q) (path_room_id q) w1)
    as (w2 & Hsub & (Hcm2 & Hcr2 & Hdb2) & Hps & Hch).
  unfold mbind at 1. unfold M_bind at 1. rewrite Hsub.
  destruct (publish_message_beside (join_publish_raises q) (path_room_id q)
              (mkMessage (uuid4 q) (default "Anonymous" (query_username q)) (path_room_id q)
                 (default "Anonymous" (query_username q) +:+ " joined the room")
                 JOIN (join_utcnow q)) w2)
    as (w3 & Hjoin & (Hcm3 & Hcr3 & Hdb3) & Hrm3).
  unfold mbind at 1. unfold M_bind at 1. rewrite Hjoin.
  destruct (receive_loop_beside (uuid4 q) (default "Anonymous" (query_username q))
              (path_room_id q) frames e w3) as (w4 & Hloop & (Hcm4 & Hcr4 & Hdb4) & Hrm4).
  unfold try_except. rewrite Hloop.
  assert (Hcm : connection_manager w4
                = connection_manager (world_of
                    (ConnectionManager.connect None (websocket q) (request_user q)
                       (path_room_id q) w0))).
  { rewrite Hconn. simpl. by rewrite Hcm4, Hcm3, Hcm2. }
  assert (Hcr : current_room w4 !! obj (request_user q) = Some (path_room_id q)).
  { rewrite Hcr4, Hcr3, Hcr2. simpl. by rewrite lookup_insert_eq. }
  assert (Hrm : redis_manager w4 = redis_manager w2) by congruence.
  assert (Hdb : rooms_db w4 = rooms_db w) by (by rewrite Hdb4, Hdb3, Hdb2).
  destruct (decide (e = WebSocketDisconnect)) as [->|Hne].
  - destruct (connect_undone w0 (websocket q) (request_user q) (path_room_id q) w4
                Hwel0 Hnr Hcm Hcr) as (w5 & Hdis & Hcm5 & Hrm5 & Hdb5).
    unfold mbind at 1. unfold M_bind at 1. rewrite Hdis.
    destruct (publish_message_beside (leave_publish_raises q) (path_room_id q)
                (mkMessage (uuid4 q) (default "Anonymous" (query_username q))
                   (path_room_id q)
                   (default "Anonymous" (query_username q) +:+ " left the room")
                   LEAVE (leave_utcnow q)) w5)
      as (w6 & Hleave & (Hcm6 & Hcr6 & Hdb6) & Hrm6).
    unfold mbind at 1. unfold M_bind at 1. rewrite Hleave.
    unfold logger, emit. eexists. split; [reflexivity|].
    cbn [set_trace connection_manager rooms_db redis_manager].
    rewrite Hcm6, Hcm5, Hdb6, Hdb5, Hdb, Hrm6, Hrm5, Hrm. done.
  - unfold logger, emit. unfold mbind at 1. unfold M_bind at 1.
    set (w4' := set_trace _ w4).
    destruct (connect_undone w0 (websocket q) (request_user q) (path_room_id q) w4'
                Hwel0 Hnr Hcm Hcr) as (w5 & Hdis & Hcm5 & Hrm5 & Hdb5).
    rewrite Hdis. eexists. split; [reflexivity|].
    rewrite Hcm5, Hdb5, Hrm5. subst w4'. cbn [set_trace rooms_db redis_manager].
    rewrite Hdb, Hrm. done.
Qed.

(** X13.  In every state the registry reaches with fresh users, a request
    of one more fresh user to a room that exists, whose handshake succeeds
    and whose read raises after any number of frames, is served to the end:
    [websocket_endpoint] returns normally, whatever the exception of the
    read and whatever the broker did, and the registry is exactly as it was
    before the request, as is the room store.  The relay keeps every
    subscription it had, and the one to the channel of the room that the
    request added stays after the user has left: the gateway never
    unsubscribes. *)
Theorem session_leaves_registry_as_found q w frames e :
  reachable_by fresh_user w →
  fresh_user w (Connect None (websocket q) (request_user q) (path_room_id q)) →
  path_room_id q ∈ dom (rooms_db w) →
  accept_raises q = None →
  received q = (frame_step <$> frames) ++ [ReceiveRaises e] →
  let result := websocket_endpoint q w in
  returns result = true
  ∧ connection_manager (world_of result) = connection_manager w
  ∧ rooms_db (world_of result) = rooms_db w
  ∧ default ∅ (pubsub (redis_manager w))
    ⊆ default ∅ (pubsub (redis_manager (world_of result)))
  ∧ (is_Some (pubsub (redis_manager w)) → subscribe_raises q = None →
     "room:" +:+ path_room_id q ∈ default ∅ (pubsub (redis_manager (world_of result)))).
Proof.
  intros Hreach Hf Hroom Haccept Hrecv result.
  pose proof (fresh_user_welcomes w None _ _ _ Hreach Hf) as Hwel.
  destruct Hf as [(_ & _ & Hnr) _].
  destruct (websocket_endpoint_session q w frames e Hwel Hnr Hroom Haccept Hrecv)
    as (w' & Hrun & Hrest).
  subst result. rewrite Hrun. by split.
Qed.

Lemma open_house_fresh_user : reachable_by fresh_user open_house.
Proof.
  repeat (apply reachable_step); [by apply reachable_init|..];
    (split; [split; [by vm_compute|]; split; [|done]|]; intros ws' u' Hu Heq).
  - by vm_compute in Hu.
  - by vm_compute in Hu.
  - apply (elem_of_map_to_list (user_sessions _)) in Hu.
    vm_compute in Hu. set_solver.
  - apply (elem_of_map_to_list (user_sessions _)) in Hu.
    vm_compute in Hu. set_solver.
  - apply (elem_of_map_to_list (user_sessions _)) in Hu.
    vm_compute in Hu. set_solver.
  - apply (elem_of_map_to_list (user_sessions _)) in Hu.
    vm_compute in Hu. set_solver.
Qed.

Lemma dave_is_fresh_in_open_house :
  fresh_user open_house (Connect None 13 dave "general").
Proof.
  split; [split; [by vm_compute|]; split; [|done]|]; intros ws' u' Hu Heq;
    apply (elem_of_map_to_list (user_sessions _)) in Hu;
    vm_compute in Hu; set_solver.
Qed.

Lemma session_leaves_registry_as_found_witness :
  reachable_by fresh_user open_house
  ∧ fresh_user open_house (Connect None 13 dave "general")
  ∧ ("general" ∈ dom (rooms_db open_house))
  ∧ connection_manager
      (world_of (websocket_endpoint (dave_request (RuntimeError "read failed")) open_house))
    = connection_manager open_house
  ∧ "room:general"
    ∈ default ∅ (pubsub (redis_manager
        (world_of (websocket_endpoint (dave_request (RuntimeError "read failed")) open_house)))).
Proof.
  assert (Hroom : "general" ∈ dom (rooms_db open_house)) by (by vm_compute).
  split; [exact open_house_fresh_user|]. split; [exact dave_is_fresh_in_open_house|].
  split; [exact Hroom|].
  pose proof (session_leaves_registry_as_found (dave_request (RuntimeError "read failed"))
                open_house [("hi", noon, None)] (RuntimeError "read failed")
                open_house_fresh_user dave_is_fresh_in_open_house Hroom eq_refl eq_refl)
    as (_ & Hcm & _ & _ & Hsub).
  split; [exact Hcm|]. apply Hsub; [by eexists|done].
Defined.

(** ** The room listing *)

Lemma get_rooms_eq w :
  get_rooms w
  = Ok ((λ item : string * Room,
           listed (default 0 (ConnectionManager.get_all_rooms (connection_manager w)
                              !! item.1)) item.2)
        <$> map_to_list (rooms_db w)) w.
Proof. reflexivity. Qed.

Lemma elem_of_listing c (db : gmap string Room) room :
  room ∈ ((λ item : string * Room,
             listed (default 0 (ConnectionManager.get_all_rooms c !! item.1)) item.2)
          <$> map_to_list db)
  ↔ ∃ room_id stored,
      db !! room_id = Some stored
      ∧ room = listed (ConnectionManager.get_room_member_count c room_id) stored.
Proof.
  assert (Hcount : ∀ room_id,
            default 0 (ConnectionManager.get_all_rooms c !! room_id)
            = ConnectionManager.get_room_member_count c room_id).
  { intros room_id.
    unfold ConnectionManager.get_all_rooms, ConnectionManager.get_room_member_count.
    rewrite lookup_fmap. by destruct (room_members c !! room_id). }
  rewrite list_elem_of_fmap. split.
  - intros ([room_id stored] & -> & Hin). apply elem_of_map_to_list in Hin.
    exists room_id, stored. split; [done|]. simpl. by rewrite Hcount.
  - intros (room_id & stored & Hdb & ->). exists (room_id, stored). split.
    + simpl. by rewrite Hcount.
    + by apply elem_of_map_to_list.
Qed.

Lemma registry_counts w room_id :
  reachable_by fresh_user w →
  ConnectionManager.get_room_member_count (connection_manager w) room_id
  = size (room_connections (connection_manager w) room_id).
Proof.
  intros Hreach.
  pose proof (reachable_inv w (reachable_fresh_user_session w Hreach)) as [Hk Hne Hcs Hsc].
  pose proof (reachable_members_inv w Hreach) as [Hu Hms Hsm Hsz].
  unfold ConnectionManager.get_room_member_count, room_connections.
  destruct (active_connections (connection_manager w) !! room_id) as [conns|] eqn:Hc.
  - destruct (keys_agree_lookup _ _ _ Hk Hc) as [ids Hm]. rewrite Hm. simpl. eauto.
  - assert (Hm : room_members (connection_manager w) !! room_id = None).
    { apply not_elem_of_dom. rewrite <- Hk. by apply not_elem_of_dom. }
    by rewrite Hm.
Qed.

(** X14.  In every state the registry reaches with fresh users,
    [get_rooms] returns normally and changes nothing, the stored rooms
    included; its list has one room for every key of the room store and
    nothing else, each the stored room with its member count replaced by the
    number of connections the registry has in the room of that key, 0 for
    a room nobody is in. *)
Theorem get_rooms_reports_live_counts w :
  reachable_by fresh_user w →
  ∃ rooms,
    get_rooms w = Ok rooms w
    ∧ length rooms = size (rooms_db w)
    ∧ ∀ room,
        room ∈ rooms
        ↔ ∃ room_id stored,
            rooms_db w !! room_id = Some stored
            ∧ room = listed (size (room_connections (connection_manager w) room_id)) stored.
Proof.
  intros Hreach.
  eexists. split; [apply get_rooms_eq|]. split.
  - by rewrite length_fmap, length_map_to_list.
  - intros room. rewrite elem_of_listing.
    split; intros (room_id & stored & Hdb & ->); exists room_id, stored;
      by rewrite registry_counts.
Qed.

Lemma get_rooms_reports_live_counts_witness :
  reachable_by fresh_user open_house
  ∧ ∃ rooms,
      get_rooms open_house = Ok rooms open_house
      ∧ length rooms = 3
      ∧ mkRoom "general" "General" noon 2 ∈ rooms.
Proof.
  split; [exact open_house_fresh_user|].
  destruct (get_rooms_reports_live_counts open_house open_house_fresh_user)
    as (rooms & Hrun & Hlen & Hiff).
  exists rooms. split; [exact Hrun|]. split; [by rewrite Hlen|].
  apply Hiff. exists "general", (mkRoom "general" "General" noon 0).
  split; by vm_compute.
Defined.

(** ** A room from [create_room] to its first member *)

Lemma websocket_endpoint_open q w frames :
  path_room_id q ∈ dom (rooms_db w) →
  active_connections (connection_manager w) !! path_room_id q = None →
  accept_raises q = None →
  received q = frame_step <$> frames →
  ∃ w', websocket_endpoint q w = Ok tt w'
    ∧ rooms_db w' = rooms_db w
    ∧ connection_manager w'
      = mkConnectionManager
          (<[path_room_id q := ∅ ∪ {[websocket q]}]> (active_connections (connection_manager w)))
          (<[websocket q := request_user q]> (user_sessions (connection_manager w)))
          (<[path_room_id q := ∅ ∪ {[id (request_user q)]}]>
             (room_members (connection_manager w))).
Proof.
  intros Hroom Hnew Haccept Hrecv.
  unfold websocket_endpoint. rewrite Haccept, Hrecv.
  fold (request_user q).
  unfold mbind at 1. unfold M_bind at 1. unfold ConnectionManager.assign_current_room.
  unfold mbind at 1. unfold M_bind at 1. cbn [rooms_db set_current_room].
  rewrite decide_True by done.
  set (w0 := set_current_room _ w).
  unfold mbind at 1. unfold M_bind at 1.
  rewrite (connect_new_room w0 (websocket q) (request_user q) (path_room_id q) Hnew).
  set (w1 := connected w0 _ _ _ ∅ ∅).
  destruct (subscribe_to_room_beside (subscribe_raises q) (path_room_id q) w1)
    as (w2 & Hsub & (Hcm2 & Hcr2 & Hdb2) & _).
  unfold mbind at 1. unfold M_bind at 1. rewrite Hsub.
  destruct (publish_message_beside (join_publish_raises q) (path_room_id q)
              (mkMessage (uuid4 q) (default "Anonymous" (query_username q)) (path_room_id q)
                 (default "Anonymous" (query_username q) +:+ " joined the room")
                 JOIN (join_utcnow q)) w2)
    as (w3 & Hjoin & (Hcm3 & Hcr3 & Hdb3) & Hrm3).
  unfold mbind at 1. unfold M_bind at 1. rewrite Hjoin.
  destruct (receive_loop_open (uuid4 q) (default "Anonymous" (query_username q))
              (path_room_id q) frames w3) as (w4 & Hloop & (Hcm4 & Hcr4 & Hdb4) & Hrm4).
  unfold try_except. rewrite Hloop.
  exists w4. split; [done|]. split; [by rewrite Hdb4, Hdb3, Hdb2|].
  by rewrite Hcm4, Hcm3, Hcm2.
Qed.

(** X15.  While rooms and member sets have the same keys and the registry
    has no room under the new id, [create_room] returns the room with the
    name of the request and a member count of 0 and stores it under its id,
    and [get_rooms] lists it so.  A request to that id whose handshake
    succeeds is then not turned away: while its connection is open, after
    any number of frames, the websocket has the session of the user of the
    request and [get_rooms] lists the room with a member count of 1. *)
Theorem created_room_can_be_joined request_name uuid utcnow w q frames :
  keys_agree (connection_manager w) →
  active_connections (connection_manager w) !! uuid = None →
  path_room_id q = uuid →
  accept_raises q = None →
  received q = frame_step <$> frames →
  ∃ w1 w2 rooms1 rooms2,
    create_room request_name uuid utcnow w = Ok (mkRoom uuid request_name utcnow 0) w1
    ∧ get_rooms w1 = Ok rooms1 w1
    ∧ mkRoom uuid request_name utcnow 0 ∈ rooms1
    ∧ websocket_endpoint q w1 = Ok tt w2
    ∧ ConnectionManager.get_user_info (connection_manager w2) (websocket q)
      = Some (request_user q)
    ∧ get_rooms w2 = Ok rooms2 w2
    ∧ mkRoom uuid request_name utcnow 1 ∈ rooms2.
Proof.
  intros Hk Hnew Hpath Haccept Hrecv.
  assert (Hm : room_members (connection_manager w) !! uuid = None).
  { apply not_elem_of_dom. rewrite <- Hk. by apply not_elem_of_dom. }
  set (room := mkRoom uuid request_name utcnow 0).
  set (w1 := set_trace
               (trace w ++ [Log INFO ("Created new room: " +:+ request_name +:+ " ("
                                      +:+ uuid +:+ ")")])
               (mkWorld (connection_manager w) (redis_manager w)
                  (<[uuid := room]> (rooms_db w)) (current_room w) (trace w))).
  assert (Hcreate : create_room request_name uuid utcnow w = Ok room w1) by reflexivity.
  destruct (websocket_endpoint_open q w1 frames) as (w2 & Hrun & Hdb2 & Hcm2); try done.
  { rewrite Hpath. simpl. rewrite dom_insert_L. set_solver. }
  { by rewrite Hpath. }
  eexists w1, w2, _, _. split; [exact Hcreate|].
  split; [apply get_rooms_eq|]. split.
  { apply elem_of_listing. exists uuid, room. split; [simpl; by rewrite lookup_insert_eq|].
    unfold ConnectionManager.get_room_member_count. simpl. by rewrite Hm. }
  split; [exact Hrun|]. split.
  { unfold ConnectionManager.get_user_info. rewrite Hcm2. simpl. by rewrite lookup_insert_eq. }
  split; [apply get_rooms_eq|].
  apply elem_of_listing. exists uuid, room. split.
  - rewrite Hdb2. simpl. by rewrite lookup_insert_eq.
  - assert (Hsize : size ((∅ : gset string) ∪ {[id (request_user q)]}) = 1).
    { by rewrite (left_id_L ∅ (∪)), size_singleton. }
    unfold ConnectionManager.get_room_member_count. rewrite Hcm2, Hpath.
    cbn [room_members]. rewrite lookup_insert_eq. cbn [default from_option].
    unfold Datatypes.id. by rewrite Hsize.
Qed.

Lemma created_room_can_be_joined_witness :
  keys_agree (connection_manager started)
  ∧ active_connections (connection_manager started) !! "r-1" = None
  ∧ ∃ w1 w2 rooms1 rooms2,
      create_room "Rust" "r-1" noon started = Ok (mkRoom "r-1" "Rust" noon 0) w1
      ∧ get_rooms w1 = Ok rooms1 w1
      ∧ mkRoom "r-1" "Rust" noon 0 ∈ rooms1
      ∧ websocket_endpoint new_room_request w1 = Ok tt w2
      ∧ ConnectionManager.get_user_info (connection_manager w2) 13 = Some dave
      ∧ get_rooms w2 = Ok rooms2 w2
      ∧ mkRoom "r-1" "Rust" noon 1 ∈ rooms2.
Proof.
  assert (Hk : keys_agree (connection_manager started)) by reflexivity.
  assert (Hn : active_connections (connection_manager started) !! "r-1" = None)
    by reflexivity.
  split; [exact Hk|]. split; [exact Hn|].
  exact (created_room_can_be_joined "Rust" "r-1" noon started new_room_request
           [("hi", noon, None)] Hk Hn eq_refl eq_refl eq_refl).
Defined.

(** ** Payloads of other clients *)



